(** * LASTRO pilot dashboard (07_dashboard_app.py): load, filter, aggregate

    Shallow embedding of the Streamlit dashboard script.  The script is a
    straight-line pandas pipeline; we model

    - the source parquet frame as a list of rows, each row an association
      list from column names to cells;
    - the loaded table ([load_data]) as a list of typed rows (the columns
      [load_data] coerces or fills become record fields, the source row is
      kept in [extra] for the columns it leaves untouched, e.g. isrc/upc);
    - every filter of the sidebar as a function on tables;
    - the group-by aggregations with pandas' key-sorted group order.

    Money and unit amounts are modelled as exact rationals ([Q]), so the
    sums below are exact; a few float64 sums, as pandas and numpy compute
    them, are modelled apart ([Float64 sums]) where rounding matters.  Dates
    are day ordinals and timestamps seconds ([Z]); text is byte strings
    (UTF-8), whose byte order is Python's code-point order. *)

From Stdlib Require Import List String Ascii Bool ZArith QArith Lia Lqa.
From Stdlib Require Import Sorting.Permutation Sorting.Sorted.
From Stdlib Require Import Structures.OrdersEx Btauto PrimFloat.
Import ListNotations.

Local Open Scope string_scope.

(** ** Cells of the source frame *)

(** A cell of the parquet frame as pandas holds it: Python [None], a float
    NaN, or any other value, carried by its [str()] rendering. *)
Inductive cell :=
| CNone
| CNaN
| CVal (repr : string).

(** [Series.astype(str)] on one cell. *)
Definition astype_str (c : cell) : string :=
  match c with
  | CNone => "None"
  | CNaN => "nan"
  | CVal s => s
  end.

(** A source row: column name -> cell. *)
Definition src_row := list (string * cell).

(** A cell of a row; a column the row does not carry reads as NaN (pandas
    aligns rows on the frame's columns). *)
Definition get_cell (r : src_row) (c : string) : cell :=
  match find (fun p => String.eqb (fst p) c) r with
  | Some (_, v) => v
  | None => CNaN
  end.

Record frame := mkFrame {
  fcolumns : list string;
  frows : list src_row
}.

Definition mem (c : string) (l : list string) : bool :=
  existsb (String.eqb c) l.

(** ** Loaded table *)

Record row := mkRow {
  period : Z;           (** timestamp, seconds since the epoch *)
  period_date : Z;      (** [period.dt.date], as a day ordinal *)
  net_royalty : Q;
  units : Q;
  distributor : string;
  artist : string;
  track_title : string;
  release_title : string;
  store : string;
  country : string;
  currency : string;
  classification : string;
  extra : src_row       (** the source row, for the untouched columns *)
}.

Record table := mkTable {
  columns : list string;
  rows : list row
}.

(** The fixed list of categorical columns of [load_data] and their
    sentinel labels. *)
Definition cat_columns : list (string * string) :=
  [ ("distributor", "(sem distribuidora)");
    ("artist", "(sem artista)");
    ("track_title", "(sem faixa)");
    ("release_title", "(sem release)");
    ("store", "(sem plataforma)");
    ("country", "(sem país)");
    ("currency", "(sem moeda)");
    ("classification", "incerto") ].

(** The categorical field of a loaded row, by column name. *)
Definition cat_field (c : string) (r : row) : string :=
  if String.eqb c "distributor" then distributor r
  else if String.eqb c "artist" then artist r
  else if String.eqb c "track_title" then track_title r
  else if String.eqb c "release_title" then release_title r
  else if String.eqb c "store" then store r
  else if String.eqb c "country" then country r
  else if String.eqb c "currency" then currency r
  else if String.eqb c "classification" then classification r
  else astype_str (get_cell (extra r) c).

(** One cell of the loop body
    [if c in df.columns:
        df[c] = df[c].astype(str).replace({"nan": np.nan, "None": np.nan}).fillna(fill)
     else:
        df[c] = fill]. *)
Definition fill_cat (present : bool) (fill : string) (v : cell) : string :=
  if present then
    let s := astype_str v in
    if String.eqb s "nan" || String.eqb s "None" then fill else s
  else fill.

(** [df[c] = ...] on a column list: an existing column keeps its place, a
    new one is appended. *)
Definition add_col (cols : list string) (c : string) : list string :=
  if mem c cols then cols else cols ++ [c].

Definition loaded_columns (cols : list string) : list string :=
  fold_left add_col ("period_date" :: map fst cat_columns) cols.

(** Day of a timestamp ([.dt.date]). *)
Definition date_of (t : Z) : Z := Z.div t 86400.

(** ** Text helpers *)

(** The search box goes through Python's [str.strip()] and [str.lower()],
    which act on all of Unicode; the dashboard below takes them as
    parameters.  Here are their restrictions to ASCII text, where they agree
    with Python, for the concrete examples. *)

(** [str.isspace] on one ASCII byte. *)
Definition is_py_space (ch : ascii) : bool :=
  let n := nat_of_ascii ch in
  (Nat.leb 9 n && Nat.leb n 13) || (Nat.leb 28 n && Nat.leb n 32).

Fixpoint drop_space (l : list ascii) : list ascii :=
  match l with
  | [] => []
  | ch :: l' => if is_py_space ch then drop_space l' else l
  end.

(** [str.strip()] on ASCII text. *)
Definition ascii_strip (s : string) : string :=
  string_of_list_ascii
    (rev (drop_space (rev (drop_space (list_ascii_of_string s))))).

Definition lower_ascii (ch : ascii) : ascii :=
  let n := nat_of_ascii ch in
  if Nat.leb 65 n && Nat.leb n 90 then ascii_of_nat (n + 32)%nat else ch.

(** [str.lower()] on ASCII text. *)
Fixpoint ascii_lower (s : string) : string :=
  match s with
  | EmptyString => EmptyString
  | String ch s' => String (lower_ascii ch) (ascii_lower s')
  end.

(** ** Sidebar parameters *)

(** What [st.sidebar.date_input] returns: one date, or a tuple of dates. *)
Inductive date_value :=
| DVDate (d : Z)
| DVTuple (ds : list Z).

Record params := mkParams {
  date_range : date_value;
  sel_dist : list string;
  sel_class : list string;
  sel_store : list string;
  sel_country : list string;
  search_input : string;   (** raw text of the search box *)
  min_rev : Q;
  min_units : Q
}.

Fixpoint list_min (l : list Z) : option Z :=
  match l with
  | [] => None
  | x :: l' => match list_min l' with
               | Some m => Some (Z.min x m)
               | None => Some x
               end
  end.

Fixpoint list_max (l : list Z) : option Z :=
  match l with
  | [] => None
  | x :: l' => match list_max l' with
               | Some m => Some (Z.max x m)
               | None => Some x
               end
  end.

(** [dmin = df["period_date"].min(); dmax = ...max();
     st.sidebar.date_input("Período", value=(dmin, dmax),
                           min_value=dmin, max_value=dmax)].
    On an empty column pandas returns NaN, which [date_input] refuses as a
    bound (it raises [StreamlitAPIException]): the setup fails. *)
Definition date_setup (t : table) : option (Z * Z) :=
  match list_min (map period_date (rows t)), list_max (map period_date (rows t)) with
  | Some dmin, Some dmax => Some (dmin, dmax)
  | _, _ => None
  end.

(** [if isinstance(date_range, tuple) and len(date_range) == 2:
        start_date, end_date = date_range
     else:
        start_date, end_date = dmin, dmax] *)
Definition resolve_range (dmin dmax : Z) (v : date_value) : Z * Z :=
  match v with
  | DVTuple [a; b] => (a, b)
  | _ => (dmin, dmax)
  end.

(** ** Filter steps *)

(** [f[mask]]: boolean indexing keeps the columns and the masked rows. *)
Definition keep (m : row -> bool) (t : table) : table :=
  {| columns := columns t; rows := filter m (rows t) |}.

(** [f = f[(f["period_date"] >= start_date) & (f["period_date"] <= end_date)]] *)
Definition step_date (start_date end_date : Z) (t : table) : table :=
  keep (fun r => (start_date <=? period_date r)%Z && (period_date r <=? end_date)%Z) t.

(** The four multiselect dimensions. *)
Inductive dim := DDist | DClass | DStore | DCountry.

Definition dim_col (d : dim) (r : row) : string :=
  match d with
  | DDist => distributor r
  | DClass => classification r
  | DStore => store r
  | DCountry => country r
  end.

Definition dim_sel (d : dim) (p : params) : list string :=
  match d with
  | DDist => sel_dist p
  | DClass => sel_class p
  | DStore => sel_store p
  | DCountry => sel_country p
  end.

(** [Series.isin(sel)] on one value. *)
Definition isin (v : string) (sel : list string) : bool := mem v sel.

(** [if sel: f = f[f[col].isin(sel)]] *)
Definition step_sel (d : dim) (sel : list string) (t : table) : table :=
  match sel with
  | [] => t
  | _ :: _ => keep (fun r => isin (dim_col d r) sel) t
  end.

(** [if thr > 0: f = f[f[col] >= thr]] *)
Definition step_min (field : row -> Q) (thr : Q) (t : table) : table :=
  if negb (Qle_bool thr 0) then keep (fun r => Qle_bool thr (field r)) t else t.

(** The columns the search box looks at. *)
Definition search_cols : list string :=
  ["track_title"; "release_title"; "artist"; "isrc"; "upc"].

(** [f[c].astype(str)] on one row. *)
Definition col_str (r : row) (c : string) : string := cat_field c r.

(** ** Aggregation helpers *)

Definition sum_col (field : row -> Q) (rs : list row) : Q :=
  fold_right (fun r acc => field r + acc)%Q 0%Q rs.

Definition str_compare : string -> string -> comparison := String_as_OT.compare.

(** Insertion into a strictly increasing list of strings, dropping a
    duplicate. *)
Fixpoint insert_uniq (x : string) (l : list string) : list string :=
  match l with
  | [] => [x]
  | y :: l' =>
      match str_compare x y with
      | Lt => x :: l
      | Eq => l
      | Gt => y :: insert_uniq x l'
      end
  end.

(** [sorted(set(l))], and the key order of [groupby] (sort=True). *)
Definition sorted_set (l : list string) : list string :=
  fold_right insert_uniq [] l.

(** One row of [groupby(key)[["net_royalty", "units"]].sum()]. *)
Record grp := mkGrp {
  gkey : string;
  grev : Q;
  gunits : Q
}.

Definition group_sum (key : row -> string) (rs : list row) : list grp :=
  map (fun k =>
         let g := filter (fun r => String.eqb (key r) k) rs in
         {| gkey := k; grev := sum_col net_royalty g; gunits := sum_col units g |})
      (sorted_set (map key rs)).

(** One row of the Top Faixas aggregation. *)
Record track_row := mkTrack {
  tt_title : string;
  tt_revenue : Q;
  tt_units : Q;
  tt_distributor : string
}.

(** [groupby(["track_title"], as_index=False).agg(revenue=("net_royalty", "sum"),
      units=("units", "sum"),
      distributor=("distributor", lambda s: ", ".join(sorted(set(s)))))] *)
Definition top_tracks_agg (rs : list row) : list track_row :=
  map (fun k =>
         let g := filter (fun r => String.eqb (track_title r) k) rs in
         {| tt_title := k;
            tt_revenue := sum_col net_royalty g;
            tt_units := sum_col units g;
            tt_distributor := String.concat ", " (sorted_set (map distributor g)) |})
      (sorted_set (map track_title rs)).

(** ** Monthly timeline *)

(** Year and month of a day ordinal (days since 1970-01-01) in the
    proleptic Gregorian calendar, as [Timestamp.year] / [.month] give them
    (H. Hinnant's days-to-civil computation). *)
Definition civil_from_days (days : Z) : Z * Z :=
  let z := (days + 719468)%Z in
  let era := (z / 146097)%Z in
  let doe := (z - era * 146097)%Z in
  let yoe := ((doe - doe / 1460 + doe / 36524 - doe / 146096) / 365)%Z in
  let doy := (doe - (365 * yoe + yoe / 4 - yoe / 100))%Z in
  let mp := ((5 * doy + 2) / 153)%Z in
  let m := if (mp <? 10)%Z then (mp + 3)%Z else (mp - 9)%Z in
  let y := (yoe + era * 400 + (if (m <=? 2)%Z then 1 else 0))%Z in
  (y, m).

Definition digit (n : Z) : ascii := ascii_of_nat (48 + Z.to_nat n).

(** The last [w] decimal digits of [n], zero-padded. *)
Fixpoint zdigits (w : nat) (n : Z) : string :=
  match w with
  | O => EmptyString
  | S w' => zdigits w' (n / 10)%Z ++ String (digit (n mod 10)%Z) EmptyString
  end.

(** [strftime("%Y-%m")]: pandas timestamps lie in the years 1677-2262, so
    the year always has four digits. *)
Definition ym_key (y m : Z) : string := zdigits 4 y ++ "-" ++ zdigits 2 m.

(** [f["period_ym"] = pd.to_datetime(f["period"]).dt.strftime("%Y-%m")] *)
Definition period_ym (r : row) : string :=
  let '(y, m) := civil_from_days (date_of (period r)) in ym_key y m.

(** [timeline = f.groupby("period_ym")["net_royalty"].sum().sort_index()]:
    one entry per month present, keys in string order. *)
Definition timeline (rs : list row) : list (string * Q) :=
  map (fun k => (k, sum_col net_royalty (filter (fun r => String.eqb (period_ym r) k) rs)))
      (sorted_set (map period_ym rs)).

(** ** Sidebar options and initial state *)

(** [all_dist = sorted(df["distributor"].unique().tolist())], and likewise
    for the other three dimensions. *)
Definition options (d : dim) (t : table) : list string :=
  sorted_set (map (dim_col d) (rows t)).

(** What the widgets return before the user touches them:
    [value=(dmin, dmax)], [default=all_dist], [default=all_class],
    [default=[]] twice, [value=""], [value=0.0] twice. *)
Definition default_params (dmin dmax : Z) (t : table) : params :=
  {| date_range := DVTuple [dmin; dmax];
     sel_dist := options DDist t; sel_class := options DClass t;
     sel_store := []; sel_country := [];
     search_input := ""; min_rev := 0; min_units := 0 |}.

(** ** Concrete instances of the library primitives, for examples *)

(** Value of a string of decimal digits. *)
Fixpoint digits_value (s : string) (acc : Z) : option Z :=
  match s with
  | EmptyString => Some acc
  | String ch s' =>
      let n := Z.of_nat (nat_of_ascii ch) in
      if (48 <=? n)%Z && (n <=? 57)%Z then digits_value s' (acc * 10 + (n - 48))%Z
      else None
  end.

(** A parser accepting the non-empty digit strings (and nothing else). *)
Definition parse_digits (c : cell) : option Z :=
  match c with
  | CVal (String ch s) => digits_value (String ch s) 0
  | _ => None
  end.

Definition to_numeric_digits (c : cell) : option Q :=
  option_map inject_Z (parse_digits c).

(** [re.search] restricted to patterns whose only metacharacter is ['.'],
    where it agrees with Python: ['.'] matches any byte but a newline,
    every other byte matches itself. *)
Fixpoint re_match_here (pat s : string) : bool :=
  match pat, s with
  | EmptyString, _ => true
  | String _ _, EmptyString => false
  | String p pat', String ch s' =>
      (if Ascii.eqb p "." then negb (Ascii.eqb ch "010") else Ascii.eqb p ch)
      && re_match_here pat' s'
  end.

Fixpoint re_search_dot (pat s : string) : bool :=
  re_match_here pat s ||
  match s with
  | EmptyString => false
  | String _ s' => re_search_dot pat s'
  end.

Definition re_valid_dot (pat : string) : bool := true.

(** An insertion sort, descending on a rational key. *)
Fixpoint insert_desc {A : Type} (key : A -> Q) (x : A) (l : list A) : list A :=
  match l with
  | [] => [x]
  | y :: l' => if Qle_bool (key y) (key x) then x :: l else y :: insert_desc key x l'
  end.

Definition isort_desc (A : Type) (key : A -> Q) (l : list A) : list A :=
  fold_right (insert_desc key) [] l.

(** A loaded row with the given title, distributor, amounts and day. *)
Definition ex_row (title dist : string) (rev u : Q) (day : Z) : row :=
  {| period := day * 86400; period_date := day; net_royalty := rev; units := u;
     distributor := dist; artist := "(sem artista)"; track_title := title;
     release_title := "(sem release)"; store := "(sem plataforma)";
     country := "(sem país)"; currency := "(sem moeda)";
     classification := "incerto"; extra := [] |}.

Definition ex_columns : list string :=
  ["net_royalty"; "units"; "period"; "period_date"; "distributor"; "artist";
   "track_title"; "release_title"; "store"; "country"; "currency"; "classification"].

Definition ex_table : table :=
  {| columns := ex_columns;
     rows := [ex_row "Song" "A" 3 10 100; ex_row "Other" "B" 0 0 101;
              ex_row "Song" "B" 2 5 102] |}.

(** Sidebar state: a single date picked, nothing selected, a search for
    "so", no minimums. *)
Definition ex_params : params :=
  {| date_range := DVDate 101; sel_dist := []; sel_class := []; sel_store := [];
     sel_country := []; search_input := "  SO "; min_rev := 0; min_units := 0 |}.

Definition ex_search_row : row := ex_row "abc" "A" 1 1 100.

Definition ex_search_table : table :=
  {| columns := ex_columns; rows := [ex_search_row] |}.

(** A source whose distributor column holds an empty and a padded value. *)
Definition ex_src_blank : frame :=
  {| fcolumns := ["net_royalty"; "units"; "period"; "distributor"];
     frows := [[("net_royalty", CVal "5"); ("units", CVal "1");
                ("period", CVal "8640000"); ("distributor", CVal "")];
               [("net_royalty", CVal "7"); ("units", CVal "2");
                ("period", CVal "8640000"); ("distributor", CVal " A ")]] |}.

(** A source whose periods do not parse. *)
Definition ex_src_bad_period : frame :=
  {| fcolumns := ["net_royalty"; "units"; "period"];
     frows := [[("net_royalty", CVal "5"); ("units", CVal "1");
                ("period", CVal "2024-13")]] |}.

(** A source with a period that does not parse, a units value that does not
    parse, and a track_title column holding None and the text "nan". *)
Definition ex_src_mixed : frame :=
  {| fcolumns := ["net_royalty"; "units"; "period"; "track_title"];
     frows := [[("net_royalty", CVal "5"); ("units", CVal "n/a");
                ("period", CVal "8640000"); ("track_title", CNone)];
               [("net_royalty", CVal "7"); ("units", CVal "2");
                ("period", CVal "soon"); ("track_title", CVal "Song")];
               [("net_royalty", CNaN); ("units", CVal "3");
                ("period", CVal "8726400"); ("track_title", CVal "nan")]] |}.

(** ** Float64 sums

    The script sums float64 columns.  For the (distributor, net_royalty)
    pairs of a filtered table, the by-distributor totals and the revenue
    KPI are computed as follows (decimal literals are read as Python reads
    them, the nearest binary64 value). *)

Local Set Warnings "-inexact-float".

(** pandas' groupby sum over float64: compensated (Kahan) summation from
    (0, 0): [y = v - c; t = s + y; c = (t - s) - y; s = t]. *)
Definition kahan_sum (l : list float) : float :=
  fst (fold_left (fun sc v =>
                    let '(s, c) := sc in
                    let y := (v - c)%float in
                    let t := (s + y)%float in
                    (t, ((t - s) - y)%float))
                 l (0%float, 0%float)).

(** Left-to-right float addition from 0. *)
Definition fsum_seq (l : list float) : float := fold_left PrimFloat.add l 0%float.

(** numpy's [sum] on fewer than 8 float64 values ([Series.sum] for
    [total_rev]): the first value plus the sum of the rest, which is
    accumulated left to right from -0.0. *)
Definition np_sum (l : list float) : float :=
  match l with
  | [] => 0%float
  | x :: rest => (x + fold_left PrimFloat.add rest (PrimFloat.opp 0%float))%float
  end.

(** [groupby("distributor")["net_royalty"].sum()] over float64 values with
    the given group summation: one (key, total) pair per distinct key, in
    key order. *)
Definition fgroup_totals (gsum : list float -> float) (rs : list (string * float))
    : list (string * float) :=
  map (fun k => (k, gsum (map snd (filter (fun r => String.eqb (fst r) k) rs))))
      (sorted_set (map fst rs)).

(** Three filtered rows: distributor A 0.10, B 0.20, A 0.01. *)
Definition ex_cents : list (string * float) :=
  [("A", 0.1%float); ("B", 0.2%float); ("A", 0.01%float)].

(** ** The dashboard, over the library primitives it calls *)

Section Dashboard.

(** pandas' element parsers: [pd.to_numeric(errors="coerce")] and
    [pd.to_datetime(errors="coerce")] on one cell ([None] = coerced to
    NaN / NaT). *)
Variable to_numeric : cell -> option Q.
Variable to_datetime : cell -> option Z.

Definition coerce_fill0 (c : cell) : Q :=
  match to_numeric c with Some q => q | None => 0%Q end.

(** One source row through [load_data], once its period has parsed. *)
Definition load_row (cols : list string) (r : src_row) (t : Z) : row :=
  let cat c fill := fill_cat (mem c cols) fill (get_cell r c) in
  {| period := t;
     period_date := date_of t;
     net_royalty := coerce_fill0 (get_cell r "net_royalty");
     units := coerce_fill0 (get_cell r "units");
     distributor := cat "distributor" "(sem distribuidora)";
     artist := cat "artist" "(sem artista)";
     track_title := cat "track_title" "(sem faixa)";
     release_title := cat "release_title" "(sem release)";
     store := cat "store" "(sem plataforma)";
     country := cat "country" "(sem país)";
     currency := cat "currency" "(sem moeda)";
     classification := cat "classification" "incerto";
     extra := r |}.

(** [df.dropna(subset=["period"])] after the coercion. *)
Fixpoint load_rows (cols : list string) (rs : list src_row) : list row :=
  match rs with
  | [] => []
  | r :: rs' =>
      match to_datetime (get_cell r "period") with
      | Some t => load_row cols r t :: load_rows cols rs'
      | None => load_rows cols rs'
      end
  end.

(** [load_data].  When [net_royalty], [units] or [period] is not a column,
    [df.get] returns [None] and the coercion line raises ([nan.fillna], or
    [.dt] on an all-[None] object column): the load fails. *)
Definition load (src : frame) : option table :=
  let cols := fcolumns src in
  if mem "net_royalty" cols && mem "units" cols && mem "period" cols then
    Some {| columns := loaded_columns cols;
            rows := load_rows cols (frows src) |}
  else None.

(** Python's regular expressions, as [Series.str.contains] uses them
    (regex=True is its default): [re_valid pat] when [re.compile(pat)]
    succeeds, [re_search pat s] for [re.search(pat, s) is not None]. *)
Variable re_valid : string -> bool.
Variable re_search : string -> string -> bool.

(** Python's [str.lower()] and [str.strip()] (Unicode case mapping and
    whitespace). *)
Variable str_lower : string -> string.
Variable str_strip : string -> string.

(** [''.strip() == ''] and [''.lower() == '']. *)
Hypothesis str_strip_empty : str_strip "" = "".
Hypothesis str_lower_empty : str_lower "" = "".

(** [search = text_input(...).strip().lower()] *)
Definition search_term (raw : string) : string := str_lower (str_strip raw).

Definition mask_or (m : option (row -> bool)) (r : row) : bool :=
  match m with Some g => g r | None => false end.

(** [mask = False; for c in cols: if c in f.columns:
        mask = mask | f[c].astype(str).str.lower().str.contains(search, na=False)].
    The outer [None] is a raised [re.error]; an inner [None] is the mask
    still being the scalar [False]. *)
Fixpoint search_mask (search : string) (present : list string)
    (cols : list string) (m : option (row -> bool)) : option (option (row -> bool)) :=
  match cols with
  | [] => Some m
  | c :: cs =>
      if mem c present then
        if re_valid search then
          search_mask search present cs
            (Some (fun r => mask_or m r || re_search search (str_lower (col_str r c))))
        else None
      else search_mask search present cs m
  end.

(** [if search: ...; f = f[mask]]; [f[False]] raises [KeyError]. *)
Definition step_search (search : string) (t : table) : option table :=
  if String.eqb search "" then Some t
  else match search_mask search (columns t) search_cols None with
       | Some (Some g) => Some (keep g t)
       | _ => None
       end.

(** The APLICA FILTROS block. *)
Definition filter_stage (dmin dmax : Z) (p : params) (t : table) : option table :=
  let '(start_date, end_date) := resolve_range dmin dmax (date_range p) in
  let f := step_date start_date end_date t in
  let f := step_sel DDist (sel_dist p) f in
  let f := step_sel DClass (sel_class p) f in
  let f := step_sel DStore (sel_store p) f in
  let f := step_sel DCountry (sel_country p) f in
  match step_search (search_term (search_input p)) f with
  | None => None
  | Some f =>
      let f := step_min net_royalty (min_rev p) f in
      Some (step_min units (min_units p) f)
  end.

(** [DataFrame.sort_values(key, ascending=False)] (numpy's default
    quicksort underneath; its order among equal keys is left open). *)
Variable sort_values : forall A : Type, (A -> Q) -> list A -> list A.

(** What pandas guarantees of it: a reordering, descending on the key. *)
Hypothesis sort_values_perm :
  forall (A : Type) (key : A -> Q) (l : list A), Permutation (sort_values A key l) l.
Hypothesis sort_values_sorted :
  forall (A : Type) (key : A -> Q) (l : list A),
    Sorted (fun x y => (key y <= key x)%Q) (sort_values A key l).

Definition total_rev (f : table) : Q := sum_col net_royalty (rows f).
Definition total_units (f : table) : Q := sum_col units (rows f).
Definition n_tracks (f : table) : nat := List.length (sorted_set (map track_title (rows f))).

Definition by_dist (f : table) : list grp :=
  sort_values _ grev (group_sum distributor (rows f)).
Definition by_class (f : table) : list grp :=
  sort_values _ grev (group_sum classification (rows f)).
Definition by_store (f : table) : list grp :=
  firstn 20 (sort_values _ grev (group_sum store (rows f))).
Definition by_country (f : table) : list grp :=
  firstn 20 (sort_values _ grev (group_sum country (rows f))).
Definition top_tracks (f : table) : list track_row :=
  firstn 30 (sort_values _ tt_revenue (top_tracks_agg (rows f))).

Record outputs := mkOutputs {
  o_total_rev : Q;
  o_total_units : Q;
  o_n_tracks : nat;
  o_by_dist : list grp;
  o_by_class : list grp;
  o_by_store : list grp;
  o_by_country : list grp;
  o_top_tracks : list track_row;
  o_export : table
}.

(** The whole script, top to bottom, for one state of the sidebar. *)
Definition dashboard (src : frame) (p : params) : option outputs :=
  match load src with
  | None => None
  | Some df =>
      match date_setup df with
      | None => None
      | Some (dmin, dmax) =>
          match filter_stage dmin dmax p df with
          | None => None
          | Some f =>
              Some {| o_total_rev := total_rev f; o_total_units := total_units f;
                      o_n_tracks := n_tracks f;
                      o_by_dist := by_dist f; o_by_class := by_class f;
                      o_by_store := by_store f; o_by_country := by_country f;
                      o_top_tracks := top_tracks f; o_export := f |}
          end
      end
  end.


(** [t'] is [t] with some rows masked out: same columns, and the rows of
    [t'] are those of [t] that pass some mask, in their order. *)
Definition refines (t' t : table) : Prop :=
  columns t' = columns t /\ exists m : row -> bool, rows t' = filter m (rows t).

(** The membership test a reader means by "is in the selection". *)
Definition in_sel (v : string) (sel : list string) : bool :=
  if in_dec string_dec v sel then true else false.

(** The bounds test a reader means by "within [start_date, end_date]". *)
Definition in_range (start_date end_date d : Z) : bool :=
  if Z_le_dec start_date d then (if Z_le_dec d end_date then true else false) else false.

(** "[pat] occurs in [s]" as a plain substring. *)
Fixpoint is_substring (pat s : string) : bool :=
  String.prefix pat s ||
  match s with
  | EmptyString => false
  | String _ s' => is_substring pat s'
  end.

(** The threshold test a reader means by "value >= t". *)
Definition at_least (thr v : Q) : bool :=
  if Qlt_le_dec v thr then false else true.

(** The search test on one row, as the mask loop computes it when the
    pattern compiles. *)
Definition search_hit (q : string) (cols : list string) (r : row) : bool :=
  existsb (fun c => mem c cols && re_search q (str_lower (col_str r c))) search_cols.

(** A selection test: an empty selection lets every row through. *)
Definition sel_ok (sel : list string) (v : string) : bool :=
  match sel with [] => true | _ :: _ => in_sel v sel end.

(** A minimum test: a minimum not above 0 lets every row through. *)
Definition min_ok (thr v : Q) : bool :=
  if Qlt_le_dec 0 thr then at_least thr v else true.

(** All the sidebar's tests on one row, combined with "and". *)
Definition row_passes (start_date end_date : Z) (p : params) (cols : list string)
    (r : row) : bool :=
  let q := search_term (search_input p) in
  in_range start_date end_date (period_date r) &&
  sel_ok (sel_dist p) (distributor r) && sel_ok (sel_class p) (classification r) &&
  sel_ok (sel_store p) (store r) && sel_ok (sel_country p) (country r) &&
  (if String.eqb q "" then true else search_hit q cols r) &&
  min_ok (min_rev p) (net_royalty r) && min_ok (min_units p) (units r).

(** The strict order Python's [sorted] uses on strings. *)
Definition str_lt : string -> string -> Prop := String_as_OT.lt.

(** ** General lemmas *)

Lemma filter_filter_and {A : Type} (m1 m2 : A -> bool) (l : list A) :
  filter m2 (filter m1 l) = filter (fun x => m1 x && m2 x) l.
Proof.
  induction l as [|x l IH]; simpl; [reflexivity|].
  destruct (m1 x); simpl; [destruct (m2 x); simpl|]; rewrite IH; reflexivity.
Qed.

Lemma filter_all {A : Type} (m : A -> bool) (l : list A) :
  (forall x, In x l -> m x = true) -> filter m l = l.
Proof.
  induction l as [|x l IH]; intros H; simpl; [reflexivity|].
  rewrite (H x (or_introl eq_refl)), IH; [reflexivity|].
  intros y Hy; apply H; right; exact Hy.
Qed.

Lemma filter_ext_in {A : Type} (m1 m2 : A -> bool) (l : list A) :
  (forall x, In x l -> m1 x = m2 x) -> filter m1 l = filter m2 l.
Proof.
  induction l as [|x l IH]; intros H; simpl; [reflexivity|].
  rewrite (H x (or_introl eq_refl)), IH; [reflexivity|].
  intros y Hy; apply H; right; exact Hy.
Qed.

Lemma table_eta (t : table) : {| columns := columns t; rows := rows t |} = t.
Proof. destruct t; reflexivity. Qed.

Lemma mem_in (c : string) (l : list string) : mem c l = true <-> In c l.
Proof.
  unfold mem; rewrite existsb_exists; split.
  - intros [x [Hx Heq]]; apply String.eqb_eq in Heq; subst; exact Hx.
  - intros H; exists c; split; [exact H | apply String.eqb_refl].
Qed.

Lemma isin_in_sel (v : string) (sel : list string) : isin v sel = in_sel v sel.
Proof.
  unfold isin, in_sel; destruct (in_dec string_dec v sel) as [H|H].
  - apply mem_in; exact H.
  - destruct (mem v sel) eqn:E; [|reflexivity].
    apply mem_in in E; contradiction.
Qed.

Lemma range_in_range (s e d : Z) :
  ((s <=? d)%Z && (d <=? e)%Z) = in_range s e d.
Proof.
  unfold in_range; destruct (Z_le_dec s d), (Z_le_dec d e); simpl;
    repeat match goal with
           | |- context [(?a <=? ?b)%Z] => destruct (Z.leb_spec a b)
           end; simpl; try reflexivity; lia.
Qed.

Lemma qle_at_least (thr v : Q) : Qle_bool thr v = at_least thr v.
Proof.
  unfold at_least; destruct (Qlt_le_dec v thr) as [H|H].
  - destruct (Qle_bool thr v) eqn:E; [|reflexivity].
    apply Qle_bool_iff in E; exfalso; apply (Qlt_not_le v thr H E).
  - apply Qle_bool_iff; exact H.
Qed.

Lemma list_min_le (l : list Z) (m : Z) :
  list_min l = Some m -> forall x, In x l -> (m <= x)%Z.
Proof.
  revert m; induction l as [|y l IH]; intros m H x Hx; simpl in *; [discriminate|].
  destruct (list_min l) as [m'|] eqn:E; inversion H; subst.
  - destruct Hx as [<-|Hx]; [lia|]. specialize (IH m' eq_refl x Hx); lia.
  - destruct Hx as [<-|Hx]; [lia|].
    destruct l; [contradiction| simpl in E; destruct (list_min l); discriminate].
Qed.

Lemma list_max_ge (l : list Z) (m : Z) :
  list_max l = Some m -> forall x, In x l -> (x <= m)%Z.
Proof.
  revert m; induction l as [|y l IH]; intros m H x Hx; simpl in *; [discriminate|].
  destruct (list_max l) as [m'|] eqn:E; inversion H; subst.
  - destruct Hx as [<-|Hx]; [lia|]. specialize (IH m' eq_refl x Hx); lia.
  - destruct Hx as [<-|Hx]; [lia|].
    destruct l; [contradiction| simpl in E; destruct (list_max l); discriminate].
Qed.

(** ** Filter steps refine the table *)

Lemma refines_refl (t : table) : refines t t.
Proof.
  split; [reflexivity|]. exists (fun _ => true).
  symmetry; apply filter_all; reflexivity.
Qed.

Lemma refines_trans (t1 t2 t3 : table) :
  refines t1 t2 -> refines t2 t3 -> refines t1 t3.
Proof.
  intros [Hc1 [m1 Hr1]] [Hc2 [m2 Hr2]]; split; [congruence|].
  exists (fun r => m2 r && m1 r); rewrite Hr1, Hr2; apply filter_filter_and.
Qed.

Lemma keep_refines (m : row -> bool) (t : table) : refines (keep m t) t.
Proof. split; [reflexivity|]; exists m; reflexivity. Qed.

Lemma step_date_refines (s e : Z) (t : table) : refines (step_date s e t) t.
Proof. apply keep_refines. Qed.

Lemma step_sel_refines (d : dim) (sel : list string) (t : table) :
  refines (step_sel d sel t) t.
Proof. destruct sel; [apply refines_refl | apply keep_refines]. Qed.

Lemma step_min_refines (field : row -> Q) (thr : Q) (t : table) :
  refines (step_min field thr t) t.
Proof. unfold step_min; destruct (negb _); [apply keep_refines | apply refines_refl]. Qed.

Lemma step_search_refines (search : string) (t f : table) :
  step_search search t = Some f -> refines f t.
Proof.
  unfold step_search; destruct (String.eqb search "").
  - intros H; inversion H; apply refines_refl.
  - destruct (search_mask search (columns t) search_cols None) as [[g|]|];
      intros H; inversion H; apply keep_refines.
Qed.

Lemma refines_length (t' t : table) :
  refines t' t -> (List.length (rows t') <= List.length (rows t))%nat.
Proof.
  intros [_ [m ->]]; clear t'; induction (rows t) as [|r rs IH]; simpl; [lia|].
  destruct (m r); simpl; lia.
Qed.

(** ** Load lemmas *)

Lemma load_rows_in (cols : list string) (rs : list src_row) (r : row) :
  In r (load_rows cols rs) ->
  exists sr tm, In sr rs /\ to_datetime (get_cell sr "period") = Some tm /\
                r = load_row cols sr tm.
Proof.
  induction rs as [|sr rs IH]; simpl; [contradiction|].
  destruct (to_datetime (get_cell sr "period")) as [tm|] eqn:E.
  - intros [<-|H].
    + exists sr, tm; auto.
    + destruct (IH H) as [sr' [tm' [H1 H2]]]; exists sr', tm'; auto.
  - intros H; destruct (IH H) as [sr' [tm' [H1 H2]]]; exists sr', tm'; auto.
Qed.

Lemma load_rows_none (cols : list string) (rs : list src_row) :
  (forall r, In r rs -> to_datetime (get_cell r "period") = None) ->
  load_rows cols rs = [].
Proof.
  induction rs as [|sr rs IH]; intros H; simpl; [reflexivity|].
  rewrite (H sr (or_introl eq_refl)); apply IH.
  intros r Hr; apply H; right; exact Hr.
Qed.

Lemma cat_field_load_row (cols : list string) (sr : src_row) (tm : Z) (c fill : string) :
  In (c, fill) cat_columns ->
  cat_field c (load_row cols sr tm) = fill_cat (mem c cols) fill (get_cell sr c).
Proof.
  intros H; simpl in H.
  repeat (destruct H as [H|H]; [inversion H; subst; reflexivity|]); contradiction.
Qed.

Lemma add_col_keeps (c : string) (l cols : list string) :
  In c cols -> In c (fold_left add_col l cols).
Proof.
  revert cols; induction l as [|x l IH]; intros cols H; simpl; [exact H|].
  apply IH; unfold add_col; destruct (mem x cols); [exact H|].
  apply in_or_app; left; exact H.
Qed.

Lemma add_col_adds (c : string) (l cols : list string) :
  In c l -> In c (fold_left add_col l cols).
Proof.
  revert cols; induction l as [|x l IH]; intros cols H; simpl; [contradiction|].
  destruct H as [<-|H]; [|apply IH; exact H].
  apply add_col_keeps; unfold add_col; destruct (mem x cols) eqn:E.
  - apply mem_in; exact E.
  - apply in_or_app; right; left; reflexivity.
Qed.

(** ** Sorted key sets *)

Lemma insert_uniq_in (x z : string) (l : list string) :
  In z (insert_uniq x l) <-> z = x \/ In z l.
Proof.
  induction l as [|y l IH]; simpl.
  - split; intros [H|[]]; left; symmetry; exact H.
  - unfold str_compare; destruct (String_as_OT.compare_spec x y) as [H|H|H];
      unfold String_as_OT.eq in H; simpl.
    + subst y; split; [intros Hz; right; exact Hz|].
      intros [->|Hz]; [left; reflexivity | exact Hz].
    + split; [intros [<-|Hz]; [left; reflexivity | right; exact Hz]|].
      intros [->|Hz]; [left; reflexivity | right; exact Hz].
    + rewrite IH; split.
      * intros [<-|[->|Hz]]; [right; left; reflexivity | left; reflexivity
                            | right; right; exact Hz].
      * intros [->|[<-|Hz]]; [right; left; reflexivity | left; reflexivity
                            | right; right; exact Hz].
Qed.

Lemma insert_uniq_hd (x y : string) (l : list string) :
  str_lt y x -> HdRel str_lt y l -> HdRel str_lt y (insert_uniq x l).
Proof.
  intros Hyx Hl; destruct l as [|z l]; simpl; [constructor; exact Hyx|].
  inversion Hl; subst.
  unfold str_compare; destruct (String_as_OT.compare_spec x z); constructor; assumption.
Qed.

Lemma insert_uniq_sorted (x : string) (l : list string) :
  Sorted str_lt l -> Sorted str_lt (insert_uniq x l).
Proof.
  induction l as [|y l IH]; intros Hs; simpl; [repeat constructor|].
  unfold str_compare; destruct (String_as_OT.compare_spec x y) as [H|H|H].
  - exact Hs.
  - constructor; [exact Hs | constructor; exact H].
  - inversion Hs; subst; constructor; [apply IH; assumption|].
    apply insert_uniq_hd; assumption.
Qed.

Lemma sorted_set_in (z : string) (l : list string) :
  In z (sorted_set l) <-> In z l.
Proof.
  induction l as [|x l IH]; simpl; [reflexivity|].
  rewrite insert_uniq_in, IH; split; intros [H|H]; (left; symmetry; exact H) || (right; exact H).
Qed.

Lemma sorted_set_sorted (l : list string) : Sorted str_lt (sorted_set l).
Proof.
  induction l as [|x l IH]; simpl; [constructor|].
  apply insert_uniq_sorted; exact IH.
Qed.

Lemma sorted_set_nodup (l : list string) : NoDup (sorted_set l).
Proof.
  assert (Hs : StronglySorted str_lt (sorted_set l)).
  { apply Sorted_StronglySorted; [|apply sorted_set_sorted].
    intros a b c; apply String_as_OT.lt_strorder. }
  induction Hs as [|x l' Hs IH Hall]; constructor; [|exact IH].
  intros Hin; rewrite Forall_forall in Hall.
  apply (StrictOrder_Irreflexive x); apply Hall; exact Hin.
Qed.

(** ** Rows over groups *)

Lemma flat_map_key_absent (key : row -> string) (r : row) (F : string -> list row)
    (ks : list string) :
  ~ In (key r) ks ->
  flat_map (fun k => if String.eqb (key r) k then r :: F k else F k) ks = flat_map F ks.
Proof.
  induction ks as [|k ks IH]; intros H; simpl; [reflexivity|].
  destruct (String.eqb (key r) k) eqn:E.
  - apply String.eqb_eq in E; exfalso; apply H; left; symmetry; exact E.
  - rewrite IH; [reflexivity|]; intros Hin; apply H; right; exact Hin.
Qed.

Lemma flat_map_key_once (key : row -> string) (r : row) (F : string -> list row)
    (ks : list string) :
  NoDup ks -> In (key r) ks ->
  Permutation (flat_map (fun k => if String.eqb (key r) k then r :: F k else F k) ks)
    (r :: flat_map F ks).
Proof.
  induction ks as [|k ks IH]; intros Hnd Hin; [contradiction|].
  inversion Hnd as [|k' ks' Hk Hnd']; subst; simpl.
  destruct (String.eqb (key r) k) eqn:E.
  - apply String.eqb_eq in E; subst k; rewrite flat_map_key_absent by exact Hk.
    reflexivity.
  - destruct Hin as [Hin|Hin]; [rewrite Hin, String.eqb_refl in E; discriminate|].
    eapply Permutation_trans; [apply Permutation_app_head, IH; assumption|].
    apply Permutation_sym, Permutation_middle.
Qed.

Lemma flat_map_nil_rows (key : row -> string) (ks : list string) :
  flat_map (fun k => filter (fun r => String.eqb (key r) k) []) ks = [].
Proof. induction ks as [|k ks IH]; simpl; [reflexivity | exact IH]. Qed.

(** Splitting [rs] by the keys [ks] (each row's key among them, no key
    twice) puts every row in exactly one block. *)
Lemma key_partition (key : row -> string) (ks : list string) (rs : list row) :
  NoDup ks -> (forall r, In r rs -> In (key r) ks) ->
  Permutation (flat_map (fun k => filter (fun r => String.eqb (key r) k) rs) ks) rs.
Proof.
  intros Hnd; induction rs as [|r rs IH]; intros Hk.
  - rewrite flat_map_nil_rows; reflexivity.
  - eapply Permutation_trans;
      [apply (flat_map_key_once key r (fun k => filter (fun x => String.eqb (key x) k) rs));
       [exact Hnd | apply Hk; left; reflexivity]|].
    apply perm_skip, IH; intros r' Hr'; apply Hk; right; exact Hr'.
Qed.

Lemma group_sum_partition (key : row -> string) (rs : list row) :
  Permutation
    (flat_map (fun g => filter (fun r => String.eqb (key r) (gkey g)) rs) (group_sum key rs)) rs.
Proof.
  assert (E : flat_map (fun g => filter (fun r => String.eqb (key r) (gkey g)) rs)
                (group_sum key rs) =
              flat_map (fun k => filter (fun r => String.eqb (key r) k) rs)
                (sorted_set (map key rs))).
  { unfold group_sum; induction (sorted_set (map key rs)) as [|k ks IH]; simpl;
      [reflexivity | rewrite IH; reflexivity]. }
  rewrite E; apply key_partition; [apply sorted_set_nodup|].
  intros r Hr; apply sorted_set_in, in_map; exact Hr.
Qed.

(** ** Claims *)

(** C1: whatever the sidebar holds, the table the filter block produces
    keeps the loaded table's columns and consists of some of its rows, in
    their order, so it has at most as many rows. *)
Theorem filter_stage_subset (dmin dmax : Z) (p : params) (t f : table) :
  filter_stage dmin dmax p t = Some f ->
  columns f = columns t /\
  (exists m : row -> bool, rows f = filter m (rows t)) /\
  (List.length (rows f) <= List.length (rows t))%nat.
Proof.
  unfold filter_stage; destruct (resolve_range dmin dmax (date_range p)) as [s e].
  set (f1 := step_sel DCountry (sel_country p)
               (step_sel DStore (sel_store p)
                  (step_sel DClass (sel_class p)
                     (step_sel DDist (sel_dist p) (step_date s e t))))).
  assert (H1 : refines f1 t).
  { unfold f1.
    eapply refines_trans; [apply step_sel_refines|].
    eapply refines_trans; [apply step_sel_refines|].
    eapply refines_trans; [apply step_sel_refines|].
    eapply refines_trans; [apply step_sel_refines|].
    apply step_date_refines. }
  destruct (step_search (search_term (search_input p)) f1) as [f2|] eqn:E;
    [|discriminate].
  intros H; inversion H; subst f; clear H.
  assert (H2 : refines (step_min units (min_units p) (step_min net_royalty (min_rev p) f2)) t).
  { eapply refines_trans; [apply step_min_refines|].
    eapply refines_trans; [apply step_min_refines|].
    eapply refines_trans; [eapply step_search_refines; exact E|].
    exact H1. }
  destruct H2 as [Hc Hr]; split; [exact Hc|]; split; [exact Hr|].
  apply refines_length; split; assumption.
Qed.

(** C2: on each of the four multiselect dimensions an empty selection
    leaves the table as it is, and a non-empty one keeps exactly the rows
    whose value in that column is in the selection (columns unchanged). *)
Theorem step_sel_empty_or_member (d : dim) (t : table) :
  step_sel d [] t = t /\
  forall (x : string) (xs : list string),
    columns (step_sel d (x :: xs) t) = columns t /\
    rows (step_sel d (x :: xs) t) =
      filter (fun r => in_sel (dim_col d r) (x :: xs)) (rows t).
Proof.
  split; [reflexivity|].
  intros x xs; split; [reflexivity|]; unfold step_sel, keep; simpl rows.
  apply filter_ext_in; intros r _; exact (isin_in_sel (dim_col d r) (x :: xs)).
Qed.

(** C3: a revenue or units minimum equal to 0 leaves the table as it is
    (rows at exactly 0 included); a positive minimum keeps exactly the rows
    whose value is at least the minimum. *)
Theorem step_min_zero_or_at_least (thr : Q) (t : table) :
  ((thr == 0)%Q ->
     step_min net_royalty thr t = t /\ step_min units thr t = t) /\
  ((0 < thr)%Q ->
     rows (step_min net_royalty thr t) = filter (fun r => at_least thr (net_royalty r)) (rows t) /\
     rows (step_min units thr t) = filter (fun r => at_least thr (units r)) (rows t)).
Proof.
  unfold step_min; split.
  - intros H; assert (E : Qle_bool thr 0 = true) by (apply Qle_bool_iff; rewrite H; apply Qle_refl).
    rewrite E; split; reflexivity.
  - intros H; assert (E : Qle_bool thr 0 = false).
    { destruct (Qle_bool thr 0) eqn:E; [|reflexivity].
      apply Qle_bool_iff in E; exfalso; apply (Qlt_not_le 0 thr H E). }
    rewrite E; simpl; split; apply filter_ext_in; intros r _; apply qle_at_least.
Qed.

(** C4 (as the code does it): every categorical column of the fixed list
    is a column of the loaded table; where the source lacks it every row
    holds the sentinel; where the source has it, a value whose [str()] is
    "nan" or "None" (NaN and None cells) becomes the sentinel and any other
    value is kept as its [str()], untrimmed, the empty string included. *)
Theorem load_categorical_fill (src : frame) (t : table) (c fill : string) :
  load src = Some t -> In (c, fill) cat_columns ->
  In c (columns t) /\
  forall r, In r (rows t) ->
    In (extra r) (frows src) /\
    (~ In c (fcolumns src) -> cat_field c r = fill) /\
    (In c (fcolumns src) ->
       let v := astype_str (get_cell (extra r) c) in
       ((v = "nan" \/ v = "None") -> cat_field c r = fill) /\
       (v <> "nan" -> v <> "None" -> cat_field c r = v)).
Proof.
  unfold load; intros Hl Hc.
  destruct (mem "net_royalty" (fcolumns src) && mem "units" (fcolumns src)
            && mem "period" (fcolumns src)); [|discriminate].
  inversion Hl; subst t; clear Hl; simpl; split.
  - apply add_col_adds; right; apply (in_map fst) in Hc; exact Hc.
  - intros r Hr; apply load_rows_in in Hr.
    destruct Hr as [sr [tm [Hin [_ ->]]]].
    rewrite (cat_field_load_row _ _ _ _ _ Hc); simpl; split; [exact Hin|].
    unfold fill_cat; split.
    + intros Hn; destruct (mem c (fcolumns src)) eqn:E; [|reflexivity].
      apply mem_in in E; contradiction.
    + intros Hp; apply mem_in in Hp; rewrite Hp; split.
      * intros [Hv|Hv]; rewrite Hv; reflexivity.
      * intros H1 H2; apply String.eqb_neq in H1, H2; rewrite H1, H2; reflexivity.
Qed.

(** C9: the date filter keeps exactly the rows whose day lies in the
    inclusive bounds; a pair from the date control gives the bounds, and
    anything else (a single date) falls back to the table's min and max, so
    every row is kept. *)
Theorem date_filter_bounds (t : table) (dmin dmax : Z) (v : date_value) :
  date_setup t = Some (dmin, dmax) ->
  (forall s e, columns (step_date s e t) = columns t /\
     rows (step_date s e t) = filter (fun r => in_range s e (period_date r)) (rows t)) /\
  (forall a b, v = DVTuple [a; b] -> resolve_range dmin dmax v = (a, b)) /\
  ((forall a b, v <> DVTuple [a; b]) ->
     resolve_range dmin dmax v = (dmin, dmax) /\ step_date dmin dmax t = t).
Proof.
  intros Hs; split; [|split].
  - intros s e; split; [reflexivity|].
    apply filter_ext_in; intros r _; apply range_in_range.
  - intros a b ->; reflexivity.
  - intros Hv; split.
    + destruct v as [d|[|a [|b [|c ds]]]]; try reflexivity.
      exfalso; exact (Hv a b eq_refl).
    + unfold date_setup in Hs.
      destruct (list_min (map period_date (rows t))) as [m1|] eqn:E1; [|discriminate].
      destruct (list_max (map period_date (rows t))) as [m2|] eqn:E2; [|discriminate].
      inversion Hs; subst m1 m2.
      unfold step_date, keep; rewrite filter_all; [apply table_eta|].
      intros r Hr; apply (in_map period_date) in Hr.
      pose proof (list_min_le _ _ E1 _ Hr); pose proof (list_max_ge _ _ E2 _ Hr).
      apply andb_true_iff; split; apply Z.leb_le; assumption.
Qed.

(** C10: when no source row has a period that parses, the loaded table is
    empty, the date control has no min/max to be set up with, and the
    script stops there instead of rendering. *)
Theorem no_period_setup_fails (src : frame) (t : table) (p : params) :
  load src = Some t ->
  (forall r, In r (frows src) -> to_datetime (get_cell r "period") = None) ->
  rows t = [] /\ date_setup t = None /\ dashboard src p = None.
Proof.
  intros Hl Hp.
  assert (Hr : rows t = []).
  { unfold load in Hl.
    destruct (mem "net_royalty" (fcolumns src) && mem "units" (fcolumns src)
              && mem "period" (fcolumns src)); [|discriminate].
    inversion Hl; simpl; apply load_rows_none; exact Hp. }
  assert (Hd : date_setup t = None) by (unfold date_setup; rewrite Hr; reflexivity).
  split; [exact Hr|]; split; [exact Hd|].
  unfold dashboard; rewrite Hl, Hd; reflexivity.
Qed.

(** C7: Top Faixas has one row per distinct track title, with the summed
    revenue and units of that title's rows and the ", "-joined sorted list
    of its distinct distributors; rows come in descending revenue and only
    the first 30 are kept. *)
Theorem top_tracks_groups (f : table) :
  let G := sort_values _ tt_revenue (top_tracks_agg (rows f)) in
  top_tracks f = firstn 30 G /\
  Sorted (fun x y => (tt_revenue y <= tt_revenue x)%Q) G /\
  NoDup (map tt_title G) /\
  (forall k, In k (map tt_title G) <-> exists r, In r (rows f) /\ track_title r = k) /\
  (forall e, In e G ->
     let g := filter (fun r => String.eqb (track_title r) (tt_title e)) (rows f) in
     tt_revenue e = sum_col net_royalty g /\
     tt_units e = sum_col units g /\
     exists L, tt_distributor e = String.concat ", " L /\ Sorted str_lt L /\
       (forall d, In d L <-> exists r, In r (rows f) /\ track_title r = tt_title e /\
                                       distributor r = d)).
Proof.
  intros G.
  assert (Hp : Permutation G (top_tracks_agg (rows f))) by apply sort_values_perm.
  assert (Ht : map tt_title (top_tracks_agg (rows f)) = sorted_set (map track_title (rows f))).
  { unfold top_tracks_agg; rewrite map_map; apply map_id. }
  split; [reflexivity|]; split; [apply sort_values_sorted|]; split; [|split].
  - apply (Permutation_NoDup (Permutation_map tt_title (Permutation_sym Hp))).
    rewrite Ht; apply sorted_set_nodup.
  - intros k; split.
    + intros Hk; apply (Permutation_in _ (Permutation_map tt_title Hp)) in Hk.
      rewrite Ht, sorted_set_in, in_map_iff in Hk.
      destruct Hk as [r [Hr Hin]]; exists r; split; assumption.
    + intros [r [Hin Hr]]; apply (Permutation_in _ (Permutation_map tt_title (Permutation_sym Hp))).
      rewrite Ht, sorted_set_in, in_map_iff; exists r; split; assumption.
  - intros e He; apply (Permutation_in _ Hp) in He.
    unfold top_tracks_agg in He; apply in_map_iff in He.
    destruct He as [k [<- Hk]]; simpl.
    split; [reflexivity|]; split; [reflexivity|].
    eexists; split; [reflexivity|]; split; [apply sorted_set_sorted|].
    intros d; rewrite sorted_set_in, in_map_iff; split.
    + intros [r [Hd Hr]]; apply filter_In in Hr; destruct Hr as [Hr Hq].
      apply String.eqb_eq in Hq; exists r; auto.
    + intros [r [Hr [Hq Hd]]]; exists r; split; [exact Hd|].
      apply filter_In; split; [exact Hr | apply String.eqb_eq; exact Hq].
Qed.

(** C6 (amended): every row of the filtered table falls in exactly one
    by-distributor group, the group of its own distributor, which holds all
    the filtered rows of that distributor: taken group by group, the rows
    are those of the filtered table, none lost and none counted twice. *)
Theorem by_dist_groups_partition (f : table) :
  Permutation
    (flat_map (fun g => filter (fun r => String.eqb (distributor r) (gkey g)) (rows f))
       (by_dist f))
    (rows f).
Proof.
  unfold by_dist.
  eapply Permutation_trans; [apply Permutation_flat_map, sort_values_perm|].
  apply group_sum_partition.
Qed.

(** ** Load *)

Lemma fold_add_col (l cols : list string) :
  exists added, fold_left add_col l cols = (cols ++ added)%list /\ NoDup added /\
    forall c, In c added <-> In c l /\ ~ In c cols.
Proof.
  revert cols; induction l as [|x l IH]; intros cols; simpl.
  - exists []; rewrite app_nil_r; split; [reflexivity|]; split; [constructor|].
    intros c; split; [intros []| intros [[] _]].
  - unfold add_col at 2; destruct (mem x cols) eqn:E.
    + destruct (IH cols) as [added [H1 [H2 H3]]]; exists added; split; [exact H1|].
      split; [exact H2|]; intros c; rewrite H3; split.
      * intros [Hc Hn]; split; [right; exact Hc | exact Hn].
      * intros [[<-|Hc] Hn]; [apply mem_in in E; contradiction | split; assumption].
    + destruct (IH (cols ++ [x])%list) as [added [H1 [H2 H3]]]; exists (x :: added).
      rewrite H1, <- app_assoc; split; [reflexivity|]; split.
      * constructor; [|exact H2].
        intros Hx; apply H3 in Hx; destruct Hx as [_ Hx]; apply Hx.
        apply in_or_app; right; left; reflexivity.
      * intros c; simpl; rewrite H3; split.
        -- intros [<-|[Hc Hn]].
           ++ split; [left; reflexivity|]; intros Hx; apply mem_in in Hx; congruence.
           ++ split; [right; exact Hc|]; intros Hx; apply Hn, in_or_app; left; exact Hx.
        -- intros [[<-|Hc] Hn]; [left; reflexivity|].
           destruct (string_dec c x) as [->|Hne]; [left; reflexivity|]; right.
           split; [exact Hc|]; intros Hx; apply in_app_or in Hx.
           destruct Hx as [Hx|[Hx|[]]]; [contradiction | congruence].
Qed.

Lemma load_rows_of (src : frame) (t : table) :
  load src = Some t -> rows t = load_rows (fcolumns src) (frows src).
Proof.
  unfold load; intros Hl.
  destruct (mem "net_royalty" (fcolumns src) && mem "units" (fcolumns src)
            && mem "period" (fcolumns src)); [|discriminate].
  inversion Hl; reflexivity.
Qed.

(** X5: the loaded table's columns are the source's columns, in their
    order, followed once each by those of period_date and the eight
    categorical columns that the source lacked. *)
Theorem load_columns (src : frame) (t : table) :
  load src = Some t ->
  exists added, columns t = (fcolumns src ++ added)%list /\ NoDup added /\
    forall c, In c added <-> In c ("period_date" :: map fst cat_columns) /\ ~ In c (fcolumns src).
Proof.
  unfold load; intros Hl.
  destruct (mem "net_royalty" (fcolumns src) && mem "units" (fcolumns src)
            && mem "period" (fcolumns src)); [|discriminate].
  inversion Hl; simpl; apply fold_add_col.
Qed.

(** X7: after the load no categorical value of the fixed list is the text
    "nan" or "None": those renderings always become the sentinel. *)
Theorem load_no_nan_text (src : frame) (t : table) (c fill : string) :
  load src = Some t -> In (c, fill) cat_columns ->
  forall r, In r (rows t) -> cat_field c r <> "nan" /\ cat_field c r <> "None".
Proof.
  intros Hl Hc r Hr; rewrite (load_rows_of src t Hl) in Hr.
  apply load_rows_in in Hr; destruct Hr as [sr [tm [_ [_ ->]]]].
  rewrite (cat_field_load_row _ _ _ _ _ Hc).
  assert (Hf : fill <> "nan" /\ fill <> "None").
  { simpl in Hc; repeat (destruct Hc as [Hc|Hc]; [inversion Hc; subst; split; discriminate|]);
    contradiction. }
  unfold fill_cat; destruct (mem c (fcolumns src)); [|exact Hf].
  destruct (String.eqb (astype_str (get_cell sr c)) "nan") eqn:E1; [exact Hf|].
  destruct (String.eqb (astype_str (get_cell sr c)) "None") eqn:E2; [exact Hf|].
  apply String.eqb_neq in E1, E2; split; assumption.
Qed.

(** ** Date control *)

Lemma list_min_in (l : list Z) (m : Z) : list_min l = Some m -> In m l.
Proof.
  revert m; induction l as [|y l IH]; intros m H; simpl in *; [discriminate|].
  destruct (list_min l) as [m'|] eqn:E; inversion H; subst.
  - destruct (Z.min_spec y m') as [[_ ->]|[_ ->]]; [left; reflexivity | right; apply IH; reflexivity].
  - left; reflexivity.
Qed.

Lemma list_max_in (l : list Z) (m : Z) : list_max l = Some m -> In m l.
Proof.
  revert m; induction l as [|y l IH]; intros m H; simpl in *; [discriminate|].
  destruct (list_max l) as [m'|] eqn:E; inversion H; subst.
  - destruct (Z.max_spec y m') as [[_ ->]|[_ ->]]; [right; apply IH; reflexivity | left; reflexivity].
  - left; reflexivity.
Qed.

(** X8: the date control's bounds are the smallest and the largest day of
    the loaded rows: both are days of some row, in order, and every row's
    day lies between them. *)
Theorem date_setup_bounds (t : table) (dmin dmax : Z) :
  date_setup t = Some (dmin, dmax) ->
  (dmin <= dmax)%Z /\
  (exists r, In r (rows t) /\ period_date r = dmin) /\
  (exists r, In r (rows t) /\ period_date r = dmax) /\
  (forall r, In r (rows t) -> (dmin <= period_date r <= dmax)%Z).
Proof.
  unfold date_setup; intros Hs.
  destruct (list_min (map period_date (rows t))) as [m1|] eqn:E1; [|discriminate].
  destruct (list_max (map period_date (rows t))) as [m2|] eqn:E2; [|discriminate].
  inversion Hs; subst m1 m2.
  pose proof (list_min_in _ _ E1) as H1; pose proof (list_max_in _ _ E2) as H2.
  split; [|split; [|split]].
  - apply (list_max_ge _ _ E2); exact H1.
  - apply in_map_iff in H1; destruct H1 as [r [Hr Hin]]; exists r; split; assumption.
  - apply in_map_iff in H2; destruct H2 as [r [Hr Hin]]; exists r; split; assumption.
  - intros r Hr; apply (in_map period_date) in Hr; split.
    + apply (list_min_le _ _ E1); exact Hr.
    + apply (list_max_ge _ _ E2); exact Hr.
Qed.

(** ** The filter block as one conjunction *)

Lemma step_date_eq (s e : Z) (t : table) :
  step_date s e t =
  {| columns := columns t; rows := filter (fun r => in_range s e (period_date r)) (rows t) |}.
Proof.
  unfold step_date, keep; f_equal; apply filter_ext_in; intros r _; apply range_in_range.
Qed.

Lemma step_sel_eq (d : dim) (sel : list string) (t : table) :
  step_sel d sel t =
  {| columns := columns t; rows := filter (fun r => sel_ok sel (dim_col d r)) (rows t) |}.
Proof.
  destruct sel as [|x xs]; simpl.
  - rewrite filter_all; [symmetry; apply table_eta | reflexivity].
  - unfold keep; f_equal; apply filter_ext_in; intros r _.
    exact (isin_in_sel (dim_col d r) (x :: xs)).
Qed.

Lemma step_min_eq (field : row -> Q) (thr : Q) (t : table) :
  step_min field thr t =
  {| columns := columns t; rows := filter (fun r => min_ok thr (field r)) (rows t) |}.
Proof.
  unfold step_min, min_ok; destruct (Qlt_le_dec 0 thr) as [H|H].
  - assert (E : Qle_bool thr 0 = false).
    { destruct (Qle_bool thr 0) eqn:E; [|reflexivity].
      apply Qle_bool_iff in E; exfalso; apply (Qlt_not_le 0 thr H E). }
    rewrite E; simpl; unfold keep; f_equal; apply filter_ext_in; intros r _; apply qle_at_least.
  - assert (E : Qle_bool thr 0 = true) by (apply Qle_bool_iff; exact H).
    rewrite E; simpl; rewrite filter_all; [symmetry; apply table_eta | reflexivity].
Qed.

Lemma search_mask_valid (q : string) (cols : list string) :
  re_valid q = true ->
  forall cs m, exists m',
    search_mask q cols cs m = Some m' /\
    (forall r, mask_or m' r =
               mask_or m r || existsb (fun c => mem c cols && re_search q (str_lower (col_str r c))) cs) /\
    (m' = None -> m = None /\ forall c, In c cs -> mem c cols = false).
Proof.
  intros Hv cs; induction cs as [|c cs IH]; intros m; simpl.
  - exists m; split; [reflexivity|]; split.
    + intros r; rewrite orb_false_r; reflexivity.
    + intros ->; split; [reflexivity | intros c []].
  - destruct (mem c cols) eqn:E.
    + rewrite Hv.
      destruct (IH (Some (fun r => mask_or m r || re_search q (str_lower (col_str r c)))))
        as [m' [H1 [H2 H3]]].
      exists m'; split; [exact H1|]; split.
      * intros r; rewrite H2; simpl; rewrite orb_assoc; reflexivity.
      * intros Hn; destruct (H3 Hn) as [Hd _]; discriminate Hd.
    + destruct (IH m) as [m' [H1 [H2 H3]]].
      exists m'; split; [exact H1|]; split.
      * intros r; rewrite H2; reflexivity.
      * intros Hn; destruct (H3 Hn) as [Hm Hc]; split; [exact Hm|].
        intros c' [<-|Hc']; [exact E | apply Hc; exact Hc'].
Qed.

Lemma search_mask_invalid (q : string) (cols : list string) :
  re_valid q = false ->
  forall cs m, search_mask q cols cs m = None \/ search_mask q cols cs m = Some m.
Proof.
  intros Hv cs; induction cs as [|c cs IH]; intros m; simpl; [right; reflexivity|].
  destruct (mem c cols); [rewrite Hv; left; reflexivity | apply IH].
Qed.

Lemma step_search_eq (q : string) (t : table) :
  In "track_title" (columns t) -> (q = "" \/ re_valid q = true) ->
  step_search q t =
  Some {| columns := columns t;
          rows := filter (fun r => if String.eqb q "" then true else search_hit q (columns t) r)
                    (rows t) |}.
Proof.
  intros Ht Hq; unfold step_search; destruct (String.eqb q "") eqn:Eq.
  - rewrite filter_all; [rewrite table_eta; reflexivity | reflexivity].
  - assert (Hv : re_valid q = true).
    { destruct Hq as [Hq|Hq]; [subst q; discriminate Eq | exact Hq]. }
    destruct (search_mask_valid q (columns t) Hv search_cols None) as [m' [H1 [H2 H3]]].
    rewrite H1; destruct m' as [g|].
    + unfold keep; do 2 f_equal; apply filter_ext_in; intros r _.
      rewrite H2; reflexivity.
    + exfalso; destruct (H3 eq_refl) as [_ Hc].
      specialize (Hc "track_title" (or_introl eq_refl)).
      apply mem_in in Ht; congruence.
Qed.

Lemma step_search_invalid (q : string) (t : table) :
  q <> "" -> re_valid q = false -> step_search q t = None.
Proof.
  intros Hq Hv; unfold step_search.
  destruct (String.eqb q "") eqn:Eq; [apply String.eqb_eq in Eq; contradiction|].
  destruct (search_mask_invalid q (columns t) Hv search_cols None) as [H|H]; rewrite H; reflexivity.
Qed.

Lemma step_date_setup_all (t : table) (dmin dmax : Z) :
  date_setup t = Some (dmin, dmax) -> step_date dmin dmax t = t.
Proof.
  intros Hs; unfold date_setup in Hs.
  destruct (list_min (map period_date (rows t))) as [m1|] eqn:E1; [|discriminate].
  destruct (list_max (map period_date (rows t))) as [m2|] eqn:E2; [|discriminate].
  inversion Hs; subst m1 m2.
  unfold step_date, keep; rewrite filter_all; [apply table_eta|].
  intros r Hr; apply (in_map period_date) in Hr.
  pose proof (list_min_le _ _ E1 _ Hr); pose proof (list_max_ge _ _ E2 _ Hr).
  apply andb_true_iff; split; apply Z.leb_le; assumption.
Qed.

Lemma step_sel_options (d : dim) (t t' : table) :
  (forall r, In r (rows t') -> In r (rows t)) -> step_sel d (options d t) t' = t'.
Proof.
  intros Hsub; unfold step_sel.
  destruct (options d t) as [|o os] eqn:E; [reflexivity|].
  unfold keep; rewrite filter_all; [apply table_eta|].
  intros r Hr; rewrite <- E; apply mem_in; unfold options.
  apply sorted_set_in, in_map, Hsub; exact Hr.
Qed.

(** X1: on a table that has the track_title column, the filter block keeps
    exactly the rows passing every active test at once (date bounds, the
    four selections, the search, the two minimums), whenever the search
    text is empty or compiles as a regular expression; a non-empty search
    text that does not compile makes the block fail. *)
Theorem filter_stage_conjunction (dmin dmax s e : Z) (p : params) (t : table) :
  In "track_title" (columns t) ->
  resolve_range dmin dmax (date_range p) = (s, e) ->
  let q := search_term (search_input p) in
  ((q = "" \/ re_valid q = true) ->
     filter_stage dmin dmax p t =
     Some {| columns := columns t; rows := filter (row_passes s e p (columns t)) (rows t) |}) /\
  (q <> "" -> re_valid q = false -> filter_stage dmin dmax p t = None).
Proof.
  intros Ht Hr q; unfold filter_stage; rewrite Hr.
  rewrite !step_sel_eq, step_date_eq; cbn [columns rows].
  split.
  - intros Hq; rewrite step_search_eq; [|exact Ht | exact Hq].
    rewrite !step_min_eq; cbn [columns rows]; rewrite !filter_filter_and.
    do 2 f_equal; apply filter_ext_in; intros r _.
    unfold row_passes; fold q; cbn [dim_col]; btauto.
  - intros Hq Hv; rewrite step_search_invalid; [reflexivity | exact Hq | exact Hv].
Qed.

(** X2: with every widget at its initial value (the full date range, all
    distributors and classifications selected, no store or country, an
    empty search, minimums 0), the filter block returns the loaded table
    unchanged. *)
Theorem filter_stage_defaults (t : table) (dmin dmax : Z) :
  date_setup t = Some (dmin, dmax) ->
  filter_stage dmin dmax (default_params dmin dmax t) t = Some t.
Proof.
  intros Hs; unfold filter_stage; simpl.
  unfold search_term; rewrite str_strip_empty, str_lower_empty.
  rewrite (step_date_setup_all t dmin dmax Hs).
  rewrite (step_sel_options DDist t t) by (intros r Hr; exact Hr).
  rewrite (step_sel_options DClass t t) by (intros r Hr; exact Hr).
  unfold step_min; reflexivity.
Qed.

(** X3: selecting every option a multiselect offers (the distinct values
    of the loaded table) lets every row of any filtered sub-table through,
    the same as an empty selection. *)
Theorem step_sel_all_options (d : dim) (t f : table) :
  refines f t -> step_sel d (options d t) f = f /\ step_sel d [] f = f.
Proof.
  intros [_ [m Hm]]; split; [|reflexivity].
  apply step_sel_options; intros r Hr; rewrite Hm in Hr.
  apply filter_In in Hr; apply Hr.
Qed.

(** ** When the script stops *)

(** X10: on a table that has the track_title column (load_data always adds
    it), the filter block fails exactly when the search text, after
    [str.strip()] and [str.lower()], is non-empty and does not compile as
    a regular expression. *)
Theorem filter_stage_none_iff (dmin dmax : Z) (p : params) (t : table) :
  In "track_title" (columns t) ->
  filter_stage dmin dmax p t = None <->
  search_term (search_input p) <> "" /\ re_valid (search_term (search_input p)) = false.
Proof.
  intros Ht; unfold filter_stage; destruct (resolve_range dmin dmax (date_range p)) as [s e].
  rewrite !step_sel_eq, step_date_eq; cbn [columns rows].
  set (q := search_term (search_input p)).
  destruct (string_dec q "") as [Hq|Hq].
  - rewrite step_search_eq; [|exact Ht | left; exact Hq].
    split; [discriminate | intros [Hn _]; contradiction].
  - destruct (re_valid q) eqn:Hv.
    + rewrite step_search_eq; [|exact Ht | right; exact Hv].
      split; [discriminate | intros [_ Hf]; discriminate].
    + rewrite step_search_invalid; [|exact Hq | exact Hv].
      split; [intros _; split; [exact Hq | reflexivity] | reflexivity].
Qed.

(** ** Minimum filters *)

(** X11: a higher minimum applied after a lower one on the same column
    keeps the same rows as the higher one alone. *)
Theorem step_min_compose (field : row -> Q) (thr1 thr2 : Q) (t : table) :
  (thr1 <= thr2)%Q -> step_min field thr2 (step_min field thr1 t) = step_min field thr2 t.
Proof.
  intros H12; rewrite !step_min_eq; cbn [columns rows]; rewrite filter_filter_and.
  f_equal; apply filter_ext_in; intros r _; unfold min_ok, at_least.
  destruct (Qlt_le_dec 0 thr1), (Qlt_le_dec 0 thr2); simpl;
    repeat (match goal with |- context [Qlt_le_dec ?a ?b] => destruct (Qlt_le_dec a b) end);
    simpl; try reflexivity; exfalso; lra.
Qed.

(** ** Grouped tables *)

Lemma sort_values_nil (A : Type) (key : A -> Q) : sort_values A key [] = [].
Proof. apply Permutation_nil, Permutation_sym, sort_values_perm. Qed.

Lemma sort_values_length (A : Type) (key : A -> Q) (l : list A) :
  List.length (sort_values A key l) = List.length l.
Proof. apply Permutation_length, sort_values_perm. Qed.

Lemma group_sum_keys (key : row -> string) (rs : list row) :
  map gkey (group_sum key rs) = sorted_set (map key rs).
Proof. unfold group_sum; rewrite map_map; apply map_id. Qed.

Lemma group_sum_in (key : row -> string) (rs : list row) (g : grp) :
  In g (group_sum key rs) ->
  let sel := filter (fun r => String.eqb (key r) (gkey g)) rs in
  grev g = sum_col net_royalty sel /\ gunits g = sum_col units sel.
Proof.
  unfold group_sum; intros Hg; apply in_map_iff in Hg.
  destruct Hg as [k [<- _]]; simpl; split; reflexivity.
Qed.

Lemma sorted_desc_app {A : Type} (key : A -> Q) (l1 l2 : list A) :
  Sorted (fun x y => (key y <= key x)%Q) (l1 ++ l2) ->
  forall x y, In x l1 -> In y l2 -> (key y <= key x)%Q.
Proof.
  intros Hs; apply Sorted_StronglySorted in Hs;
    [|intros a b c Hab Hbc; apply (Qle_trans _ (key b)); assumption].
  induction l1 as [|z l1 IH]; intros x y Hx Hy; [contradiction|].
  simpl in Hs; inversion Hs as [|z' l' Hs' Hall]; subst.
  destruct Hx as [<-|Hx]; [|apply IH; assumption].
  rewrite Forall_forall in Hall; apply Hall, in_or_app; right; exact Hy.
Qed.

Lemma insert_uniq_length (x : string) (l : list string) :
  (List.length (insert_uniq x l) <= S (List.length l))%nat.
Proof.
  induction l as [|y l IH]; simpl; [lia|].
  destruct (str_compare x y); simpl; lia.
Qed.

Lemma sorted_set_length (l : list string) :
  (List.length (sorted_set l) <= List.length l)%nat.
Proof.
  induction l as [|x l IH]; simpl; [lia|].
  pose proof (insert_uniq_length x (sorted_set l)); lia.
Qed.

Lemma top_n_groups (key : row -> string) (n : nat) (rs : list row) :
  let G := sort_values _ grev (group_sum key rs) in
  List.length (firstn n G) = Nat.min n (List.length (sorted_set (map key rs))) /\
  (forall g g', In g (firstn n G) -> In g' (skipn n G) -> (grev g' <= grev g)%Q).
Proof.
  intros G; split.
  - rewrite length_firstn; unfold G; rewrite sort_values_length.
    rewrite <- (length_map gkey), group_sum_keys; reflexivity.
  - apply sorted_desc_app; rewrite firstn_skipn; apply sort_values_sorted.
Qed.

(** X12: each of the four grouped tables (by distributor, classification,
    store, country) comes from one table with a row per distinct value
    present, in descending revenue, holding that value's summed revenue and
    units; the store and country tables are its first 20 rows. *)
Theorem group_tables (d : dim) (f : table) :
  let G := sort_values _ grev (group_sum (dim_col d) (rows f)) in
  (d = DDist -> by_dist f = G) /\ (d = DClass -> by_class f = G) /\
  (d = DStore -> by_store f = firstn 20 G) /\ (d = DCountry -> by_country f = firstn 20 G) /\
  Sorted (fun x y => (grev y <= grev x)%Q) G /\
  NoDup (map gkey G) /\
  (forall k, In k (map gkey G) <-> exists r, In r (rows f) /\ dim_col d r = k) /\
  (forall g, In g G ->
     let rs := filter (fun r => String.eqb (dim_col d r) (gkey g)) (rows f) in
     grev g = sum_col net_royalty rs /\ gunits g = sum_col units rs).
Proof.
  intros G.
  assert (Hp : Permutation G (group_sum (dim_col d) (rows f))) by apply sort_values_perm.
  split; [intros ->; reflexivity|]; split; [intros ->; reflexivity|].
  split; [intros ->; reflexivity|]; split; [intros ->; reflexivity|].
  split; [apply sort_values_sorted|]; split; [|split].
  - apply (Permutation_NoDup (Permutation_map gkey (Permutation_sym Hp))).
    rewrite group_sum_keys; apply sorted_set_nodup.
  - intros k; split.
    + intros Hk; apply (Permutation_in _ (Permutation_map gkey Hp)) in Hk.
      rewrite group_sum_keys, sorted_set_in, in_map_iff in Hk.
      destruct Hk as [r [H1 H2]]; exists r; split; assumption.
    + intros [r [H1 H2]]; apply (Permutation_in _ (Permutation_map gkey (Permutation_sym Hp))).
      rewrite group_sum_keys, sorted_set_in, in_map_iff; exists r; split; assumption.
  - intros g Hg; apply group_sum_in; apply (Permutation_in _ Hp); exact Hg.
Qed.

(** X13: for each of the four dimensions, taking the rows of the filtered
    table group by group over the sorted grouped table (the by-distributor
    and by-classification tables, and the tables the store and country top
    20 are cut from) gives back the rows of the filtered table, each once. *)
Theorem group_tables_partition (d : dim) (f : table) :
  let G := sort_values _ grev (group_sum (dim_col d) (rows f)) in
  Permutation (flat_map (fun g => filter (fun r => String.eqb (dim_col d r) (gkey g)) (rows f)) G)
    (rows f).
Proof.
  intros G.
  eapply Permutation_trans; [apply Permutation_flat_map, sort_values_perm|].
  apply group_sum_partition.
Qed.

(** X14: Top Plataformas and Top Paises show min(20, number of distinct
    values) rows, and no store or country left out earns more than one
    shown. *)
Theorem top20_tables (f : table) :
  let S := sort_values _ grev (group_sum store (rows f)) in
  let C := sort_values _ grev (group_sum country (rows f)) in
  List.length (by_store f) = Nat.min 20 (List.length (sorted_set (map store (rows f)))) /\
  List.length (by_country f) = Nat.min 20 (List.length (sorted_set (map country (rows f)))) /\
  (forall g g', In g (by_store f) -> In g' (skipn 20 S) -> (grev g' <= grev g)%Q) /\
  (forall g g', In g (by_country f) -> In g' (skipn 20 C) -> (grev g' <= grev g)%Q).
Proof.
  intros S C.
  destruct (top_n_groups store 20 (rows f)) as [Hs1 Hs2].
  destruct (top_n_groups country 20 (rows f)) as [Hc1 Hc2].
  split; [exact Hs1|]; split; [exact Hc1|]; split; [exact Hs2 | exact Hc2].
Qed.

(** X15: Top Faixas shows min(30, distinct titles) rows, and the distinct
    title count never exceeds the number of filtered rows. *)
Theorem top_tracks_length (f : table) :
  List.length (top_tracks f) = Nat.min 30 (n_tracks f) /\
  (n_tracks f <= List.length (rows f))%nat.
Proof.
  unfold top_tracks, n_tracks; split.
  - rewrite length_firstn, sort_values_length; unfold top_tracks_agg; rewrite length_map; reflexivity.
  - rewrite <- (length_map track_title (rows f)); apply sorted_set_length.
Qed.

(** X16: when the filters leave no row, the KPIs are 0 and every table
    and the timeline are empty. *)
Theorem empty_filter_outputs (f : table) :
  rows f = [] ->
  total_rev f = 0%Q /\ total_units f = 0%Q /\ n_tracks f = O /\
  by_dist f = [] /\ by_class f = [] /\ by_store f = [] /\ by_country f = [] /\
  top_tracks f = [] /\ timeline (rows f) = [].
Proof.
  intros H; unfold total_rev, total_units, n_tracks, by_dist, by_class, by_store,
    by_country, top_tracks; rewrite H; simpl.
  unfold group_sum, top_tracks_agg; simpl; rewrite !sort_values_nil.
  repeat split; reflexivity.
Qed.

(** ** Timeline *)

(** X17: the monthly timeline has one point per month present, keys
    strictly increasing in string order, each point the summed revenue of
    that month's rows; taken month by month over the timeline's points,
    the rows are those of the filtered table, each once. *)
Theorem timeline_props (f : table) :
  let tl := timeline (rows f) in
  Sorted str_lt (map fst tl) /\
  (forall k, In k (map fst tl) <-> exists r, In r (rows f) /\ period_ym r = k) /\
  (forall kv, In kv tl ->
     snd kv = sum_col net_royalty (filter (fun r => String.eqb (period_ym r) (fst kv)) (rows f))) /\
  Permutation (flat_map (fun kv => filter (fun r => String.eqb (period_ym r) (fst kv)) (rows f)) tl)
    (rows f).
Proof.
  intros tl.
  assert (Hk : map fst tl = sorted_set (map period_ym (rows f))).
  { unfold tl, timeline; rewrite map_map; apply map_id. }
  split; [rewrite Hk; apply sorted_set_sorted|]; split; [|split].
  - intros k; rewrite Hk, sorted_set_in, in_map_iff.
    split; intros [r [H1 H2]]; exists r; split; assumption.
  - intros kv Hkv; unfold tl, timeline in Hkv; apply in_map_iff in Hkv.
    destruct Hkv as [k [<- _]]; reflexivity.
  - assert (E : flat_map (fun kv => filter (fun r => String.eqb (period_ym r) (fst kv)) (rows f)) tl =
                flat_map (fun k => filter (fun r => String.eqb (period_ym r) k) (rows f))
                  (sorted_set (map period_ym (rows f)))).
    { unfold tl, timeline; clear Hk.
      induction (sorted_set (map period_ym (rows f))) as [|k ks IH]; cbn [map flat_map fst];
        [reflexivity | rewrite IH; reflexivity]. }
    rewrite E; apply key_partition; [apply sorted_set_nodup|].
    intros r Hr; apply sorted_set_in, in_map; exact Hr.
Qed.

(** ** Month keys *)

Lemma append_assoc_s (a b c : string) : ((a ++ b) ++ c) = (a ++ (b ++ c)).
Proof. induction a as [|ch a IH]; simpl; [reflexivity | rewrite IH; reflexivity]. Qed.

Lemma append_nil_s (a : string) : (a ++ "") = a.
Proof. induction a as [|ch a IH]; simpl; [reflexivity | rewrite IH; reflexivity]. Qed.

Lemma str_compare_app (s a b : string) :
  String_as_OT.compare (s ++ a) (s ++ b) = String_as_OT.compare a b.
Proof.
  induction s as [|c s IH]; simpl; [reflexivity|].
  destruct (Ascii_as_OT.compare_spec c c) as [_|H|H]; [exact IH| |];
    exfalso; exact (N.lt_irrefl _ H).
Qed.

Lemma digit_N (k : Z) : (0 <= k < 10)%Z -> N_of_ascii (digit k) = (48 + Z.to_N k)%N.
Proof.
  intros H.
  assert (Hk : k = 0%Z \/ k = 1%Z \/ k = 2%Z \/ k = 3%Z \/ k = 4%Z \/ k = 5%Z \/
               k = 6%Z \/ k = 7%Z \/ k = 8%Z \/ k = 9%Z) by lia.
  repeat (destruct Hk as [->|Hk]; [reflexivity|]); subst k; reflexivity.
Qed.

Lemma digit_compare (a b : Z) :
  (0 <= a < 10)%Z -> (0 <= b < 10)%Z ->
  Ascii_as_OT.compare (digit a) (digit b) = Z.compare a b.
Proof.
  intros Ha Hb; unfold Ascii_as_OT.compare; rewrite (digit_N a Ha), (digit_N b Hb).
  change (N_as_OT.compare (48 + Z.to_N a) (48 + Z.to_N b) = (a ?= b)%Z).
  rewrite <- N2Z.inj_compare, !N2Z.inj_add, !Z2N.id by lia.
  apply Z.add_compare_mono_l.
Qed.

Lemma zdigits_compare (w : nat) : forall (a b : Z) (s1 s2 : string),
  (0 <= a < 10 ^ Z.of_nat w)%Z -> (0 <= b < 10 ^ Z.of_nat w)%Z ->
  String_as_OT.compare (zdigits w a ++ s1) (zdigits w b ++ s2) =
  match Z.compare a b with Eq => String_as_OT.compare s1 s2 | c => c end.
Proof.
  induction w as [|w IH]; intros a b s1 s2 Ha Hb.
  - cbn [Z.of_nat] in Ha, Hb; rewrite Z.pow_0_r in Ha, Hb.
    assert (a = 0%Z) as -> by lia; assert (b = 0%Z) as -> by lia; reflexivity.
  - rewrite Nat2Z.inj_succ, Z.pow_succ_r in Ha, Hb by lia.
    cbn [zdigits]; rewrite !append_assoc_s; cbn [String.append].
    rewrite IH by (split; [apply Z.div_pos | apply Z.div_lt_upper_bound]; lia).
    cbn [String_as_OT.compare].
    rewrite digit_compare by (apply Z.mod_pos_bound; lia).
    pose proof (Z.div_mod a 10 ltac:(lia)); pose proof (Z.div_mod b 10 ltac:(lia)).
    pose proof (Z.mod_pos_bound a 10 ltac:(lia)); pose proof (Z.mod_pos_bound b 10 ltac:(lia)).
    destruct (Z.compare_spec (a / 10) (b / 10)), (Z.compare_spec (a mod 10) (b mod 10)),
      (Z.compare_spec a b); try reflexivity; exfalso; lia.
Qed.

(** X18: for four-digit years and two-digit months, the string order of
    the "%Y-%m" keys (the order [sort_index] gives the timeline) is the
    chronological order of the months. *)
Theorem ym_key_chronological (y1 m1 y2 m2 : Z) :
  (0 <= y1 < 10000)%Z -> (0 <= y2 < 10000)%Z -> (0 <= m1 < 100)%Z -> (0 <= m2 < 100)%Z ->
  str_compare (ym_key y1 m1) (ym_key y2 m2) =
  match Z.compare y1 y2 with Eq => Z.compare m1 m2 | c => c end.
Proof.
  intros Hy1 Hy2 Hm1 Hm2; unfold str_compare, ym_key.
  rewrite zdigits_compare by (cbn; lia).
  destruct (Z.compare y1 y2); try reflexivity.
  rewrite str_compare_app.
  rewrite <- (append_nil_s (zdigits 2 m1)), <- (append_nil_s (zdigits 2 m2)).
  rewrite zdigits_compare by (cbn; lia).
  destruct (Z.compare m1 m2); reflexivity.
Qed.

(** ** Sidebar options *)

(** X19: each multiselect offers the distinct values of its column in the
    loaded table, in strictly increasing string order. *)
Theorem options_props (d : dim) (t : table) :
  Sorted str_lt (options d t) /\ NoDup (options d t) /\
  forall v, In v (options d t) <-> exists r, In r (rows t) /\ dim_col d r = v.
Proof.
  unfold options; split; [apply sorted_set_sorted|]; split; [apply sorted_set_nodup|].
  intros v; rewrite sorted_set_in, in_map_iff.
  split; intros [r [H1 H2]]; exists r; split; assumption.
Qed.

End Dashboard.


(** ** The insertion sort meets the [sort_values] contract *)

Lemma insert_desc_perm {A : Type} (key : A -> Q) (x : A) (l : list A) :
  Permutation (insert_desc key x l) (x :: l).
Proof.
  induction l as [|y l IH]; simpl; [reflexivity|].
  destruct (Qle_bool (key y) (key x)); [reflexivity|].
  rewrite IH; apply perm_swap.
Qed.

Lemma isort_desc_perm (A : Type) (key : A -> Q) (l : list A) :
  Permutation (isort_desc A key l) l.
Proof.
  induction l as [|x l IH]; simpl; [reflexivity|].
  rewrite insert_desc_perm, IH; reflexivity.
Qed.

Lemma insert_desc_hd {A : Type} (key : A -> Q) (x y : A) (l : list A) :
  (key x <= key y)%Q -> HdRel (fun a b => (key b <= key a)%Q) y l ->
  HdRel (fun a b => (key b <= key a)%Q) y (insert_desc key x l).
Proof.
  intros Hxy Hl; destruct l as [|z l]; simpl; [constructor; exact Hxy|].
  inversion Hl; subst.
  destruct (Qle_bool (key z) (key x)); constructor; assumption.
Qed.

Lemma isort_desc_sorted (A : Type) (key : A -> Q) (l : list A) :
  Sorted (fun x y => (key y <= key x)%Q) (isort_desc A key l).
Proof.
  induction l as [|x l IH]; simpl; [constructor|].
  induction IH as [|y l' Hs IHs Hd]; simpl; [repeat constructor|].
  destruct (Qle_bool (key y) (key x)) eqn:E.
  - constructor; [constructor; assumption|].
    constructor; apply Qle_bool_iff; exact E.
  - constructor; [exact IHs|].
    apply insert_desc_hd; [|exact Hd].
    apply Qlt_le_weak, Qnot_le_lt; intros H; apply Qle_bool_iff in H; congruence.
Qed.

(** ** Witnesses and counterexamples *)

(** C1 at a concrete sidebar state. *)
Lemma filter_stage_subset_witness :
  exists f,
    filter_stage re_valid_dot re_search_dot ascii_lower ascii_strip 100 102 ex_params ex_table = Some f /\
    columns f = columns ex_table /\
    (exists m : row -> bool, rows f = filter m (rows ex_table)) /\
    (List.length (rows f) <= List.length (rows ex_table))%nat.
Proof.
  eexists; split; [vm_compute; reflexivity|].
  apply (filter_stage_subset re_valid_dot re_search_dot ascii_lower ascii_strip 100 102 ex_params ex_table).
  vm_compute; reflexivity.
Defined.

(** C3 at thresholds 0 and 6. *)
Lemma step_min_zero_or_at_least_witness :
  step_min net_royalty 0 ex_table = ex_table /\
  rows (step_min units 6 ex_table) = filter (fun r => at_least 6 (units r)) (rows ex_table).
Proof.
  split.
  - apply (proj1 (proj1 (step_min_zero_or_at_least 0 ex_table) (Qeq_refl 0))).
  - apply (proj2 (proj2 (step_min_zero_or_at_least 6 ex_table) ltac:(vm_compute; reflexivity))).
Defined.

(** C4 as stated fails: a present distributor column keeps its empty value
    and its padded value " A " untouched, no sentinel, no trimming. *)
Lemma load_keeps_blank_and_padded :
  exists t r1 r2,
    load to_numeric_digits parse_digits ex_src_blank = Some t /\
    rows t = [r1; r2] /\
    distributor r1 = "" /\ distributor r1 <> "(sem distribuidora)" /\
    distributor r2 = " A " /\ distributor r2 <> "A".
Proof.
  do 3 eexists; split; [vm_compute; reflexivity|].
  split; [reflexivity|].
  repeat split; vm_compute; congruence.
Qed.

(** C4 (amended) on the same source. *)
Lemma load_categorical_fill_witness :
  exists t,
    load to_numeric_digits parse_digits ex_src_blank = Some t /\
    In "distributor" (columns t) /\
    forall r, In r (rows t) ->
      In (extra r) (frows ex_src_blank) /\
      (~ In "distributor" (fcolumns ex_src_blank) -> cat_field "distributor" r = "(sem distribuidora)") /\
      (In "distributor" (fcolumns ex_src_blank) ->
         let v := astype_str (get_cell (extra r) "distributor") in
         ((v = "nan" \/ v = "None") -> cat_field "distributor" r = "(sem distribuidora)") /\
         (v <> "nan" -> v <> "None" -> cat_field "distributor" r = v)).
Proof.
  eexists; split; [vm_compute; reflexivity|].
  apply (load_categorical_fill to_numeric_digits parse_digits ex_src_blank _
           "distributor" "(sem distribuidora)"); [vm_compute; reflexivity | simpl; left; reflexivity].
Defined.

(** C5: [str.contains] reads the search text as a regular expression: the
    search "a.c" keeps a row titled "abc", though no searched column
    contains "a.c". *)
Lemma search_dot_is_wildcard :
  step_search re_valid_dot re_search_dot ascii_lower (search_term ascii_lower ascii_strip "a.c")
    ex_search_table =
    Some ex_search_table /\
  forall c, In c search_cols -> mem c (columns ex_search_table) = true ->
    is_substring "a.c" (ascii_lower (col_str ex_search_row c)) = false.
Proof.
  split; [vm_compute; reflexivity|].
  intros c Hc; simpl in Hc.
  repeat (destruct Hc as [<-|Hc]; [vm_compute; reflexivity|]); contradiction.
Qed.

(** C6 as stated fails for float64 amounts: on the rows A 0.10, B 0.20,
    A 0.01 the by-distributor totals are 0.11 and 0.2, which add up to
    0.31 in either order and with either summation, while the revenue KPI
    sums the column to 0.31000000000000005. *)
Lemma by_dist_float_sum_differs :
  let groups := fgroup_totals kahan_sum ex_cents in
  groups = [("A", 0.11); ("B", 0.2)]%float /\
  fgroup_totals fsum_seq ex_cents = groups /\
  np_sum (map snd groups) = (0.31)%float /\
  np_sum (map snd (rev groups)) = (0.31)%float /\
  fsum_seq (map snd groups) = (0.31)%float /\
  np_sum (map snd ex_cents) = (0.31000000000000005)%float /\
  fsum_seq (map snd ex_cents) = (0.31000000000000005)%float /\
  np_sum (map snd groups) <> np_sum (map snd ex_cents).
Proof.
  repeat split; try (vm_compute; reflexivity).
  intros H; pose proof (f_equal (fun x => PrimFloat.eqb x 0.31%float) H) as H'.
  vm_compute in H'; discriminate H'.
Qed.

(** C6 (amended) with the insertion sort, on the example table. *)
Lemma by_dist_groups_partition_witness :
  Permutation
    (flat_map (fun g => filter (fun r => String.eqb (distributor r) (gkey g)) (rows ex_table))
       (by_dist isort_desc ex_table))
    (rows ex_table).
Proof. exact (by_dist_groups_partition isort_desc isort_desc_perm ex_table). Defined.

(** C7 with the insertion sort, on two "Song" rows from distributors "A"
    and "B". *)
Lemma top_tracks_groups_witness :
  let G := isort_desc _ tt_revenue (top_tracks_agg (rows ex_table)) in
  top_tracks isort_desc ex_table = firstn 30 G /\
  Sorted (fun x y => (tt_revenue y <= tt_revenue x)%Q) G /\
  NoDup (map tt_title G) /\
  (forall k, In k (map tt_title G) <-> exists r, In r (rows ex_table) /\ track_title r = k) /\
  (forall e, In e G ->
     let g := filter (fun r => String.eqb (track_title r) (tt_title e)) (rows ex_table) in
     tt_revenue e = sum_col net_royalty g /\
     tt_units e = sum_col units g /\
     exists L, tt_distributor e = String.concat ", " L /\ Sorted str_lt L /\
       (forall d, In d L <-> exists r, In r (rows ex_table) /\ track_title r = tt_title e /\
                                       distributor r = d)).
Proof. exact (top_tracks_groups isort_desc isort_desc_perm isort_desc_sorted ex_table). Defined.

(** C9 with a single date from the control. *)
Lemma date_filter_bounds_witness :
  date_setup ex_table = Some (100%Z, 102%Z) /\
  resolve_range 100 102 (DVDate 101) = (100%Z, 102%Z) /\ step_date 100 102 ex_table = ex_table.
Proof.
  split; [vm_compute; reflexivity|].
  apply (proj2 (proj2 (date_filter_bounds ex_table 100 102 (DVDate 101) ltac:(vm_compute; reflexivity)))).
  intros a b H; discriminate H.
Defined.

(** C10 on a source whose only period is "2024-13". *)
Lemma no_period_setup_fails_witness :
  exists t,
    load to_numeric_digits parse_digits ex_src_bad_period = Some t /\
    rows t = [] /\ date_setup t = None /\
    dashboard to_numeric_digits parse_digits re_valid_dot re_search_dot ascii_lower ascii_strip
      isort_desc
      ex_src_bad_period ex_params = None.
Proof.
  eexists; split; [vm_compute; reflexivity|].
  apply (no_period_setup_fails to_numeric_digits parse_digits re_valid_dot re_search_dot
           ascii_lower ascii_strip isort_desc ex_src_bad_period _ ex_params); [vm_compute; reflexivity|].
  intros r Hr; simpl in Hr; destruct Hr as [<-|[]]; vm_compute; reflexivity.
Defined.

(** X1 on the example table, a single date picked and the search "so". *)
Lemma filter_stage_conjunction_witness :
  In "track_title" (columns ex_table) /\
  resolve_range 100 102 (date_range ex_params) = (100%Z, 102%Z) /\
  filter_stage re_valid_dot re_search_dot ascii_lower ascii_strip 100 102 ex_params ex_table =
    Some {| columns := columns ex_table;
            rows := filter (row_passes re_search_dot ascii_lower ascii_strip 100 102 ex_params (columns ex_table))
                      (rows ex_table) |}.
Proof.
  split; [exact (proj1 (mem_in "track_title" (columns ex_table)) eq_refl)|].
  split; [reflexivity|].
  apply (proj1 (filter_stage_conjunction re_valid_dot re_search_dot ascii_lower ascii_strip 100 102 100 102 ex_params
                  ex_table (proj1 (mem_in "track_title" (columns ex_table)) eq_refl) eq_refl)).
  right; reflexivity.
Defined.

(** X2 on the example table. *)
Lemma filter_stage_defaults_witness :
  date_setup ex_table = Some (100%Z, 102%Z) /\
  filter_stage re_valid_dot re_search_dot ascii_lower ascii_strip 100 102 (default_params 100 102 ex_table) ex_table =
    Some ex_table.
Proof.
  split; [vm_compute; reflexivity|].
  apply (filter_stage_defaults re_valid_dot re_search_dot ascii_lower ascii_strip
           eq_refl eq_refl ex_table 100 102).
  vm_compute; reflexivity.
Defined.

(** X3 on the example table cut to days 101-102. *)
Lemma step_sel_all_options_witness :
  refines (step_date 101 102 ex_table) ex_table /\
  step_sel DDist (options DDist ex_table) (step_date 101 102 ex_table) = step_date 101 102 ex_table /\
  step_sel DDist [] (step_date 101 102 ex_table) = step_date 101 102 ex_table.
Proof.
  assert (H : refines (step_date 101 102 ex_table) ex_table).
  { split; [reflexivity|].
    exists (fun r => (101 <=? period_date r)%Z && (period_date r <=? 102)%Z); reflexivity. }
  split; [exact H|].
  apply (step_sel_all_options DDist ex_table (step_date 101 102 ex_table) H).
Defined.

(** X5 on the mixed source. *)
Lemma load_columns_witness :
  exists t,
    load to_numeric_digits parse_digits ex_src_mixed = Some t /\
    exists added, columns t = (fcolumns ex_src_mixed ++ added)%list /\ NoDup added /\
      forall c, In c added <->
        In c ("period_date" :: map fst cat_columns) /\ ~ In c (fcolumns ex_src_mixed).
Proof.
  eexists; split; [vm_compute; reflexivity|].
  apply (load_columns to_numeric_digits parse_digits ex_src_mixed _).
  vm_compute; reflexivity.
Defined.

(** X7 on the mixed source, for the track_title column. *)
Lemma load_no_nan_text_witness :
  exists t,
    load to_numeric_digits parse_digits ex_src_mixed = Some t /\
    In ("track_title", "(sem faixa)") cat_columns /\
    forall r, In r (rows t) -> cat_field "track_title" r <> "nan" /\ cat_field "track_title" r <> "None".
Proof.
  eexists; split; [vm_compute; reflexivity|].
  split; [simpl; right; right; left; reflexivity|].
  apply (load_no_nan_text to_numeric_digits parse_digits ex_src_mixed _ "track_title" "(sem faixa)");
    [vm_compute; reflexivity | simpl; right; right; left; reflexivity].
Defined.

(** X8 on the example table. *)
Lemma date_setup_bounds_witness :
  date_setup ex_table = Some (100%Z, 102%Z) /\
  (100 <= 102)%Z /\
  (exists r, In r (rows ex_table) /\ period_date r = 100%Z) /\
  (exists r, In r (rows ex_table) /\ period_date r = 102%Z) /\
  (forall r, In r (rows ex_table) -> (100 <= period_date r <= 102)%Z).
Proof.
  split; [vm_compute; reflexivity|].
  apply (date_setup_bounds ex_table 100 102); vm_compute; reflexivity.
Defined.

(** X10 on the example table: the search "so" compiles, so the filter
    block does not fail. *)
Lemma filter_stage_none_iff_witness :
  In "track_title" (columns ex_table) /\
  (filter_stage re_valid_dot re_search_dot ascii_lower ascii_strip 100 102 ex_params ex_table =
     None <->
   search_term ascii_lower ascii_strip (search_input ex_params) <> "" /\
   re_valid_dot (search_term ascii_lower ascii_strip (search_input ex_params)) = false).
Proof.
  split; [exact (proj1 (mem_in "track_title" (columns ex_table)) eq_refl)|].
  apply (filter_stage_none_iff re_valid_dot re_search_dot ascii_lower ascii_strip 100 102
           ex_params ex_table (proj1 (mem_in "track_title" (columns ex_table)) eq_refl)).
Defined.

(** X11 with minimums 1 then 3 on the revenue column. *)
Lemma step_min_compose_witness :
  (1 <= 3)%Q /\
  step_min net_royalty 3 (step_min net_royalty 1 ex_table) = step_min net_royalty 3 ex_table.
Proof.
  split; [vm_compute; discriminate|].
  apply (step_min_compose net_royalty 1 3 ex_table); vm_compute; discriminate.
Defined.

(** X12 with the insertion sort, on the distributors of the example. *)
Lemma group_tables_witness :
  let G := isort_desc _ grev (group_sum (dim_col DDist) (rows ex_table)) in
  (DDist = DDist -> by_dist isort_desc ex_table = G) /\
  (DDist = DClass -> by_class isort_desc ex_table = G) /\
  (DDist = DStore -> by_store isort_desc ex_table = firstn 20 G) /\
  (DDist = DCountry -> by_country isort_desc ex_table = firstn 20 G) /\
  Sorted (fun x y => (grev y <= grev x)%Q) G /\
  NoDup (map gkey G) /\
  (forall k, In k (map gkey G) <-> exists r, In r (rows ex_table) /\ dim_col DDist r = k) /\
  (forall g, In g G ->
     let rs := filter (fun r => String.eqb (dim_col DDist r) (gkey g)) (rows ex_table) in
     grev g = sum_col net_royalty rs /\ gunits g = sum_col units rs).
Proof. exact (group_tables isort_desc isort_desc_perm isort_desc_sorted DDist ex_table). Defined.

(** X13 with the insertion sort, on the classifications of the example. *)
Lemma group_tables_partition_witness :
  let G := isort_desc _ grev (group_sum (dim_col DClass) (rows ex_table)) in
  Permutation
    (flat_map (fun g => filter (fun r => String.eqb (dim_col DClass r) (gkey g)) (rows ex_table)) G)
    (rows ex_table).
Proof. exact (group_tables_partition isort_desc isort_desc_perm DClass ex_table). Defined.

(** X14 with the insertion sort. *)
Lemma top20_tables_witness :
  let S := isort_desc _ grev (group_sum store (rows ex_table)) in
  let C := isort_desc _ grev (group_sum country (rows ex_table)) in
  List.length (by_store isort_desc ex_table) =
    Nat.min 20 (List.length (sorted_set (map store (rows ex_table)))) /\
  List.length (by_country isort_desc ex_table) =
    Nat.min 20 (List.length (sorted_set (map country (rows ex_table)))) /\
  (forall g g', In g (by_store isort_desc ex_table) -> In g' (skipn 20 S) -> (grev g' <= grev g)%Q) /\
  (forall g g', In g (by_country isort_desc ex_table) -> In g' (skipn 20 C) -> (grev g' <= grev g)%Q).
Proof. exact (top20_tables isort_desc isort_desc_perm isort_desc_sorted ex_table). Defined.

(** X15 with the insertion sort. *)
Lemma top_tracks_length_witness :
  List.length (top_tracks isort_desc ex_table) = Nat.min 30 (n_tracks ex_table) /\
  (n_tracks ex_table <= List.length (rows ex_table))%nat.
Proof. exact (top_tracks_length isort_desc isort_desc_perm ex_table). Defined.

(** X16 on the example table cut to days 0-1, which leaves no row. *)
Lemma empty_filter_outputs_witness :
  rows (step_date 0 1 ex_table) = [] /\
  total_rev (step_date 0 1 ex_table) = 0%Q /\ total_units (step_date 0 1 ex_table) = 0%Q /\
  n_tracks (step_date 0 1 ex_table) = O /\
  by_dist isort_desc (step_date 0 1 ex_table) = [] /\
  by_class isort_desc (step_date 0 1 ex_table) = [] /\
  by_store isort_desc (step_date 0 1 ex_table) = [] /\
  by_country isort_desc (step_date 0 1 ex_table) = [] /\
  top_tracks isort_desc (step_date 0 1 ex_table) = [] /\
  timeline (rows (step_date 0 1 ex_table)) = [].
Proof.
  split; [vm_compute; reflexivity|].
  apply (empty_filter_outputs isort_desc isort_desc_perm (step_date 0 1 ex_table)).
  vm_compute; reflexivity.
Defined.

(** X18: March 2024 against December 2023. *)
Lemma ym_key_chronological_witness :
  str_compare (ym_key 2024 3) (ym_key 2023 12) = Gt.
Proof. exact (ym_key_chronological 2024 3 2023 12 ltac:(lia) ltac:(lia) ltac:(lia) ltac:(lia)). Defined.
